(** * KeywordGenius: the keyword table, the statistics aggregator and the
      application shell, embedded from [src/App.tsx],
      [src/components/KeywordTable.tsx], the type declarations and the
      generation client.

    Conventions of the embedding.
    - A JavaScript string is a [string]: a sequence of code units, here the
      code units below 256 (Latin-1), on which [toLowerCase] and [trim] are
      written out as ECMAScript defines them.
    - A JavaScript number is an integer of [Z]; a quotient is taken in [Q]
      before [Math.round] is applied to it.
    - A plain object used as a dictionary is the list of its own properties
      in creation order, read through [Object.prototype] as the language
      does.
    - An array held by a shared object lives in a store and is updated there. *)

From Stdlib Require Import List String Ascii ZArith NArith QArith Qround Lia Bool.
From Stdlib Require Import Permutation Sorted DecimalString Lqa OrderedTypeEx.
From stdpp Require Import gmap.
Import ListNotations.

Local Close Scope Q_scope.
Local Open Scope string_scope.
Local Open Scope Z_scope.

(* ===================================================================== *)
(** * The pieces of the language the program uses *)
(* ===================================================================== *)

Module JS.

(** The double-quote character, as a one-unit string. *)
Definition dquote : string := String "034"%char EmptyString.

(** The line feed of ['\n']. *)
Definition newline : string := String "010"%char EmptyString.

(** [String.prototype.toLowerCase] on one code unit below 256: the letters
    A-Z and the Latin-1 capitals U+00C0-U+00DE (the sign U+00D7 apart) move
    up by 32, every other unit is kept. *)
Definition toLowerCase_unit (c : ascii) : ascii :=
  let n := N_of_ascii c in
  if (((65 <=? n) && (n <=? 90)) ||
      ((192 <=? n) && (n <=? 222) && negb (n =? 215)))%N
  then ascii_of_N (n + 32) else c.

Fixpoint toLowerCase (s : string) : string :=
  match s with
  | EmptyString => EmptyString
  | String c s' => String (toLowerCase_unit c) (toLowerCase s')
  end.

(** [String.prototype.includes]: [sub] occurs in [s] at some position. *)
Fixpoint includes (s sub : string) : bool :=
  String.prefix sub s ||
  match s with
  | EmptyString => false
  | String _ s' => includes s' sub
  end.

(** White space and line terminators below 256: TAB, LF, VT, FF, CR, SP and
    NBSP. *)
Definition isWhiteSpace (c : ascii) : bool :=
  let n := N_of_ascii c in
  (((9 <=? n) && (n <=? 13)) || (n =? 32) || (n =? 160))%N.

Fixpoint trimStart (s : string) : string :=
  match s with
  | EmptyString => EmptyString
  | String c s' => if isWhiteSpace c then trimStart s' else s
  end.

(** The units of [s] up to its last non-blank one. *)
Fixpoint trimEnd (s : string) : string :=
  match s with
  | EmptyString => EmptyString
  | String c s' =>
      match trimEnd s' with
      | EmptyString => if isWhiteSpace c then EmptyString
                       else String c EmptyString
      | t => String c t
      end
  end.

(** [String.prototype.trim]. *)
Definition trim (s : string) : string := trimEnd (trimStart s).

(** Truthiness of a string: every string but the empty one. *)
Definition truthy (s : string) : bool :=
  match s with EmptyString => false | _ => true end.

(** [String(n)] and [`${n}`] for an integer: its decimal digits, with a
    leading minus sign below zero. *)
Definition Number_toString (n : Z) : string :=
  NilZero.string_of_int (Z.to_int n).

(** [Math.round]: the integer nearest to [q], a tie going to the larger
    neighbour, which is [floor (q + 1/2)]. *)
Definition Math_round (q : Q) : Z := Qfloor (q + (1 # 2))%Q.

(** [Array.prototype.join]. *)
Definition join (sep : string) (parts : list string) : string :=
  String.concat sep parts.

(** [Array.prototype.sort] with a comparator that returns a number.  The
    language requires the sort to be stable: an element moves in front of
    another only when the comparator puts it strictly before, or when it
    stood before it and the comparator does not put it after.  Inserting
    each element in front of the already sorted rest of the array computes
    that order. *)
Section Sort.
Context {A : Type} (comparefn : A -> A -> Z).

Fixpoint sort_insert (x : A) (l : list A) : list A :=
  match l with
  | [] => [x]
  | y :: l' =>
      if comparefn x y <=? 0 then x :: y :: l'
      else y :: sort_insert x l'
  end.

Definition Array_sort (l : list A) : list A :=
  fold_right sort_insert [] l.
End Sort.

(** ** Values and plain objects *)

(** The values the counters of the aggregator can hold: a number, or a
    string once a property inherited from [Object.prototype] got in. *)
Inductive value : Type :=
| VNum (n : Z)
| VStr (s : string).

(** The own properties of a plain object, in the order they were created. *)
Definition object : Type := list (string * value).

Fixpoint own (o : object) (k : string) : option value :=
  match o with
  | [] => None
  | (k', v) :: o' => if String.eqb k' k then Some v else own o' k
  end.

(** The property names every plain object inherits from
    [Object.prototype]. *)
Definition ObjectPrototype_names : list string :=
  [ "constructor"; "hasOwnProperty"; "isPrototypeOf";
    "propertyIsEnumerable"; "toLocaleString"; "toString"; "valueOf";
    "__proto__"; "__defineGetter__"; "__defineSetter__";
    "__lookupGetter__"; "__lookupSetter__" ].

Definition inherited (k : string) : bool :=
  existsb (String.eqb k) ObjectPrototype_names.

(** What an inherited property turns into when a number is added to it:
    [Object.prototype] itself (read through [__proto__]) prints as
    [[object Object]], a built-in function as its source text. *)
Definition inherited_text (k : string) : string :=
  if String.eqb k "__proto__" then "[object Object]"
  else "function " ++
       (if String.eqb k "constructor" then "Object" else k) ++
       "() { [native code] }".

(** [(o[k] || 0) + 1].  An own number [n] gives [n + 1] ([n || 0] is [n]
    for every integer); a non-empty string takes the digit at its end; a
    property found on the prototype is an object or a function, which is
    truthy and is turned into text by [+]; an absent property gives 1. *)
Definition incremented (o : object) (k : string) : value :=
  match own o k with
  | Some (VNum n) => VNum (n + 1)
  | Some (VStr s) => if truthy s then VStr (s ++ "1") else VNum 1
  | None => if inherited k then VStr (inherited_text k ++ "1") else VNum 1
  end.

Fixpoint replace_own (o : object) (k : string) (v : value) : object :=
  match o with
  | [] => []
  | (k', v') :: o' =>
      if String.eqb k' k then (k', v) :: o'
      else (k', v') :: replace_own o' k v
  end.

(** [o[k] = v] on a plain object.  An own property is overwritten in
    place.  Otherwise the name [__proto__] reaches the setter of
    [Object.prototype], which ignores a value that is neither an object nor
    null; any other name becomes a new own property, created last. *)
Definition assign (o : object) (k : string) (v : value) : object :=
  match own o k with
  | Some _ => replace_own o k v
  | None => if String.eqb k "__proto__" then o else (o ++ [(k, v)])%list
  end.

(** The number a property name stands for when it is an array index: the
    canonical decimal spelling of an integer below [2^32 - 1]. *)
Fixpoint digits_value (acc : N) (s : string) : option N :=
  match s with
  | EmptyString => Some acc
  | String c s' =>
      let d := N_of_ascii c in
      if ((48 <=? d) && (d <=? 57))%N
      then digits_value (10 * acc + (d - 48))%N s'
      else None
  end.

Definition array_index (s : string) : option N :=
  match s with
  | EmptyString => None
  | String c s' =>
      if Ascii.eqb c "0"%char && negb (String.eqb s' EmptyString) then None
      else match digits_value 0%N s with
           | Some n => if (n <? 4294967295)%N then Some n else None
           | None => None
           end
  end.

Definition is_array_index (s : string) : bool :=
  match array_index s with Some _ => true | None => false end.

Definition index_of (s : string) : Z :=
  match array_index s with Some n => Z.of_N n | None => 0 end.

(** [Object.entries]: the own properties whose names are array indices come
    first, in ascending numeric order; the others follow in creation
    order. *)
Definition Object_entries (o : object) : list (string * value) :=
  (Array_sort (fun p q => index_of (fst p) - index_of (fst q))
              (List.filter (fun p => is_array_index (fst p)) o)
   ++ List.filter (fun p => negb (is_array_index (fst p))) o)%list.

(** ** Results of a call that may throw *)

(** The thrown value: an error with its [message], which can be absent. *)
Record Error : Type := mkError { message : option string }.

Inductive outcome (A : Type) : Type :=
| Returned (a : A)
| Thrown (e : Error).
Arguments Returned {A} a.
Arguments Thrown {A} e.

End JS.

(* ===================================================================== *)
(** * The declared types *)
(* ===================================================================== *)

Module Types.

(** The members of [enum SearchIntent], which are strings. *)
Module SearchIntent.
Definition Informational : string := "Informational".
Definition Commercial : string := "Commercial".
Definition Transactional : string := "Transactional".
Definition Navigational : string := "Navigational".
End SearchIntent.

(** [interface KeywordEntry]; [keywordType] and [searchIntent] are typed
    [... | string], so any string is admitted. *)
Record KeywordEntry : Type := mkKeywordEntry {
  keyword : string;
  keywordType : string;
  searchIntent : string;
  priorityScore : Z;
  importance : string
}.

(** One element [{ name, value }] of a distribution. *)
Record DistributionEntry : Type := mkDistributionEntry {
  name : string;
  value : JS.value
}.

(** [interface GenerationStats]. *)
Record GenerationStats : Type := mkGenerationStats {
  totalKeywords : Z;
  avgPriority : Z;
  intentDistribution : list DistributionEntry;
  typeDistribution : list DistributionEntry
}.

End Types.

(* ===================================================================== *)
(** * The results table ([KeywordTable.tsx]) *)
(* ===================================================================== *)

Module KeywordTable.
Import Types.

(** [type SortField = keyof KeywordEntry]. *)
Inductive SortField : Type :=
| f_keyword | f_keywordType | f_searchIntent | f_priorityScore | f_importance.

Inductive SortDirection : Type := asc | desc.

Definition SortField_eqb (a b : SortField) : bool :=
  match a, b with
  | f_keyword, f_keyword | f_keywordType, f_keywordType
  | f_searchIntent, f_searchIntent | f_priorityScore, f_priorityScore
  | f_importance, f_importance => true
  | _, _ => false
  end.

(** The four [useState] cells of the component. *)
Record State : Type := mkState {
  searchTerm : string;
  sortField : SortField;
  sortDirection : SortDirection;
  filterIntent : string
}.

Definition initial : State :=
  {| searchTerm := ""; sortField := f_priorityScore;
     sortDirection := desc; filterIntent := "All" |}.

Definition handleSort (st : State) (field : SortField) : State :=
  if SortField_eqb field (sortField st) then
    {| searchTerm := searchTerm st;
       sortField := sortField st;
       sortDirection := match sortDirection st with
                        | asc => desc
                        | desc => asc
                        end;
       filterIntent := filterIntent st |}
  else
    {| searchTerm := searchTerm st;
       sortField := field;
       sortDirection := desc;
       filterIntent := filterIntent st |}.

Definition matchesSearch (st : State) (item : KeywordEntry) : bool :=
  JS.includes (JS.toLowerCase (keyword item))
              (JS.toLowerCase (searchTerm st)).

Definition matchesIntent (st : State) (item : KeywordEntry) : bool :=
  String.eqb (filterIntent st) "All" ||
  String.eqb (searchIntent item) (filterIntent st).

Definition filteredData (st : State) (data : list KeywordEntry)
  : list KeywordEntry :=
  List.filter (fun item => matchesSearch st item && matchesIntent st item)
              data.

(** What [a[sortField]] evaluates to: a number for [priorityScore], a
    string for the other fields. *)
Inductive FieldValue : Type :=
| FNum (n : Z)
| FStr (s : string).

Definition field_of (f : SortField) (a : KeywordEntry) : FieldValue :=
  match f with
  | f_keyword => FStr (keyword a)
  | f_keywordType => FStr (keywordType a)
  | f_searchIntent => FStr (searchIntent a)
  | f_priorityScore => FNum (priorityScore a)
  | f_importance => FStr (importance a)
  end.

(** [String(v)]. *)
Definition String_of (v : FieldValue) : string :=
  match v with
  | FNum n => JS.Number_toString n
  | FStr s => s
  end.

(** The comparator handed to [sort]. *)
Definition comparefn (st : State) (a b : KeywordEntry) : Z :=
  let aValue := field_of (sortField st) a in
  let bValue := field_of (sortField st) b in
  match aValue, bValue with
  | FNum x, FNum y =>
      match sortDirection st with asc => x - y | desc => y - x end
  | _, _ =>
      let aString := JS.toLowerCase (String_of aValue) in
      let bString := JS.toLowerCase (String_of bValue) in
      if String.ltb aString bString then
        match sortDirection st with asc => -1 | desc => 1 end
      else if String.ltb bString aString then
        match sortDirection st with asc => 1 | desc => -1 end
      else 0
  end.

(** [[...filteredData].sort(...)]: the copy is sorted, the filtered array
    is left as it is. *)
Definition sortedData (st : State) (data : list KeywordEntry)
  : list KeywordEntry :=
  JS.Array_sort (comparefn st) (filteredData st data).

Definition headers : list string :=
  ["Keyword"; "Type"; "Intent"; "Score"; "Importance"].

(** The template literal of one data line. *)
Definition csvRow (row : KeywordEntry) : string :=
  JS.dquote ++ keyword row ++ JS.dquote ++ "," ++
  JS.dquote ++ keywordType row ++ JS.dquote ++ "," ++
  JS.dquote ++ searchIntent row ++ JS.dquote ++ "," ++
  JS.Number_toString (priorityScore row) ++ "," ++
  JS.dquote ++ importance row ++ JS.dquote.

Definition csvContent (st : State) (data : list KeywordEntry) : string :=
  JS.join JS.newline
          (JS.join "," headers :: List.map csvRow (sortedData st data)).

(** The file handed to the browser. *)
Record Download : Type := mkDownload {
  download : string;
  mimeType : string;
  content : string
}.

(** [downloadCSV]; [supported] stands for [link.download !== undefined]. *)
Definition downloadCSV (supported : bool) (st : State)
           (data : list KeywordEntry) : option Download :=
  if supported then
    Some {| download := "keywords.csv";
            mimeType := "text/csv;charset=utf-8;";
            content := csvContent st data |}
  else None.

End KeywordTable.

(* ===================================================================== *)
(** * The generation client *)
(* ===================================================================== *)

Module GeminiService.
Import Types.

Section Client.
(** The template literal that embeds the seed in the instructions. *)
Variable prompt : string -> string.
(** [ai.models.generateContent], awaited, then [response.text]: a string
    or [undefined], or the call throws. *)
Variable generateContent : string -> JS.outcome (option string).
(** [JSON.parse], cast to [KeywordEntry[]]. *)
Variable JSON_parse : string -> JS.outcome (list KeywordEntry).

Definition noData : JS.Error :=
  {| JS.message := Some "No data returned from Gemini." |}.

(** The [catch] clause logs the error and throws it again, so what is
    thrown inside [try] is what the caller gets. *)
Definition generateKeywords (seed : string)
  : JS.outcome (list KeywordEntry) :=
  match generateContent (prompt seed) with
  | JS.Thrown e => JS.Thrown e
  | JS.Returned text =>
      match text with
      | None => JS.Thrown noData
      | Some t =>
          if JS.truthy t then
            match JSON_parse t with
            | JS.Returned data => JS.Returned data
            | JS.Thrown e => JS.Thrown e
            end
          else JS.Thrown noData
      end
  end.
End Client.

End GeminiService.

(* ===================================================================== *)
(** * The application shell and the aggregator ([App.tsx]) *)
(* ===================================================================== *)

Module App.
Import Types.

(** ** State and [handleGenerate] *)

(** The five [useState] cells. *)
Record State : Type := mkState {
  seedKeyword : string;
  keywords : list KeywordEntry;
  loading : bool;
  error : option string;
  hasSearched : bool
}.

Definition initial : State :=
  {| seedKeyword := ""; keywords := []; loading := false;
     error := None; hasSearched := false |}.

Definition fallbackMessage : string :=
  "Failed to generate keywords. Please try again.".

(** The part of [handleGenerate] that runs before the call is awaited:
    [None] when the guard returns, with no setter called; otherwise the
    state after the four setters. *)
Definition submit (st : State) : option State :=
  if negb (JS.truthy (JS.trim (seedKeyword st))) then None
  else Some {| seedKeyword := seedKeyword st;
               keywords := [];
               loading := true;
               error := None;
               hasSearched := true |}.

(** [err.message || "Failed to ..."]. *)
Definition messageOf (err : JS.Error) : string :=
  match JS.message err with
  | Some m => if JS.truthy m then m else fallbackMessage
  | None => fallbackMessage
  end.

(** The part that runs once the call has settled: [try] or [catch], then
    [finally]. *)
Definition settle (st : State) (r : JS.outcome (list KeywordEntry))
  : State :=
  match r with
  | JS.Returned data =>
      {| seedKeyword := seedKeyword st; keywords := data;
         loading := false; error := error st;
         hasSearched := hasSearched st |}
  | JS.Thrown err =>
      {| seedKeyword := seedKeyword st; keywords := keywords st;
         loading := false; error := Some (messageOf err);
         hasSearched := hasSearched st |}
  end.

(** The whole handler, for a client [generateKeywords]. *)
Definition handleGenerate
           (generateKeywords : string -> JS.outcome (list KeywordEntry))
           (st : State) : State :=
  match submit st with
  | None => st
  | Some st1 => settle st1 (generateKeywords (seedKeyword st))
  end.

(** ** The aggregator: the [useMemo] that computes [stats] *)

(** [counts[k] = (counts[k] || 0) + 1]. *)
Definition count (counts : JS.object) (k : string) : JS.object :=
  JS.assign counts k (JS.incremented counts k).

(** The three accumulators of the [forEach]. *)
Record Tally : Type := mkTally {
  intentCounts : JS.object;
  typeCounts : JS.object;
  totalScore : Z
}.

Definition tally_step (t : Tally) (k : KeywordEntry) : Tally :=
  {| intentCounts := count (intentCounts t) (searchIntent k);
     typeCounts := count (typeCounts t) (keywordType k);
     totalScore := totalScore t + priorityScore k |}.

Definition tally (keywords : list KeywordEntry) : Tally :=
  fold_left tally_step keywords
            {| intentCounts := []; typeCounts := []; totalScore := 0 |}.

(** [Object.entries(counts).map(([name, value]) => ({ name, value }))]. *)
Definition distribution (counts : JS.object) : list DistributionEntry :=
  List.map (fun p => {| name := fst p; value := snd p |})
           (JS.Object_entries counts).

Definition stats (keywords : list KeywordEntry) : option GenerationStats :=
  match keywords with
  | [] => None
  | _ :: _ =>
      let t := tally keywords in
      let n := Z.of_nat (List.length keywords) in
      Some {| totalKeywords := n;
              avgPriority :=
                JS.Math_round (inject_Z (totalScore t) / inject_Z n)%Q;
              intentDistribution := distribution (intentCounts t);
              typeDistribution := distribution (typeCounts t) |}
  end.

(** ** The memoised object and the arrays it holds *)

(** The two distribution arrays are objects of their own: the memoised
    [stats] object holds references to them, and every reader of [stats]
    reaches the same two arrays. *)
Abbreviation loc := positive (only parsing).
Abbreviation store :=
  (gmap positive (list DistributionEntry)) (only parsing).

Record StatsObject : Type := mkStatsObject {
  o_totalKeywords : Z;
  o_avgPriority : Z;
  o_intentDistribution : loc;
  o_typeDistribution : loc
}.

(** A computation that reads and writes the store. *)
Definition M (A : Type) : Type := store -> A * store.

Definition ret {A : Type} (a : A) : M A := fun h => (a, h).

Definition bind {A B : Type} (m : M A) (f : A -> M B) : M B :=
  fun h => let (a, h') := m h in f a h'.

Notation "'let*' x ':=' m 'in' k" := (bind m (fun x => k))
  (at level 10, x name, m at level 100, k at level 200).

Definition alloc (a : list DistributionEntry) : M loc :=
  fun h => let l := fresh (dom h) in (l, <[l := a]> h).

Definition read (l : loc) : M (list DistributionEntry) :=
  fun h => (default [] (h !! l), h).

Definition write (l : loc) (a : list DistributionEntry) : M unit :=
  fun h => (tt, <[l := a]> h).

(** The object [useMemo] returns for a keyword list: the aggregator's
    result with its two arrays placed in the store. *)
Definition memo_stats (keywords : list KeywordEntry)
  : M (option StatsObject) :=
  match stats keywords with
  | None => ret None
  | Some s =>
      let* li := alloc (intentDistribution s) in
      let* lt := alloc (typeDistribution s) in
      ret (Some {| o_totalKeywords := totalKeywords s;
                   o_avgPriority := avgPriority s;
                   o_intentDistribution := li;
                   o_typeDistribution := lt |})
  end.

(** What a reader of the object sees. *)
Definition view (s : StatsObject) : M GenerationStats :=
  let* di := read (o_intentDistribution s) in
  let* dt := read (o_typeDistribution s) in
  ret {| totalKeywords := o_totalKeywords s;
         avgPriority := o_avgPriority s;
         intentDistribution := di;
         typeDistribution := dt |}.

(** ** Rendering the results section *)

(** [(a, b) => b.value - a.value].  A value that is not a number makes the
    difference [NaN], which [sort] reads as [+0]: the strings a counter
    can hold are texts of built-in functions, never numerals. *)
Definition byCountDesc (a b : DistributionEntry) : Z :=
  match value b, value a with
  | JS.VNum x, JS.VNum y => x - y
  | _, _ => 0
  end.

(** [array.sort(...)]: the array itself is sorted, and returned. *)
Definition sort_in_place (l : loc) : M (list DistributionEntry) :=
  let* a := read l in
  let a' := JS.Array_sort byCountDesc a in
  let* _ := write l a' in
  ret a'.

(** [a[0]?.name || 'N/A']. *)
Definition firstName (a : list DistributionEntry) : string :=
  match a with
  | [] => "N/A"
  | e :: _ => if JS.truthy (name e) then name e else "N/A"
  end.

(** The texts of the Top Intent and Dominant Type cards. *)
Record Cards : Type := mkCards {
  topIntent : string;
  dominantType : string
}.

(** What the results section evaluates, in source order: the two cards,
    then the [Dashboard] element, whose [stats] prop is the memoised
    object itself. *)
Definition render_results (s : StatsObject) : M (Cards * StatsObject) :=
  let* a := sort_in_place (o_intentDistribution s) in
  let* b := sort_in_place (o_typeDistribution s) in
  ret ({| topIntent := firstName a; dominantType := firstName b |}, s).

(** The guard of the results section:
    [hasSearched && !loading && !error && keywords.length > 0 && stats]. *)
Definition showsResults (st : State) (s : option StatsObject) : bool :=
  hasSearched st && negb (loading st) &&
  negb (match error st with Some m => JS.truthy m | None => false end) &&
  negb (Nat.eqb (List.length (keywords st)) 0) &&
  match s with Some _ => true | None => false end.

Definition render (st : State) (s : option StatsObject)
  : M (option (Cards * StatsObject)) :=
  match s with
  | Some o =>
      if showsResults st s then
        let* r := render_results o in ret (Some r)
      else ret None
  | None => ret None
  end.

(** What the [Dashboard] reads from its prop when it renders. *)
Definition Dashboard_data (props : StatsObject) : M GenerationStats :=
  view props.

End App.

(* ===================================================================== *)
(** * What the table draws ([KeywordTable.tsx], the helpers and the JSX) *)
(* ===================================================================== *)

Module TableView.
Import Types KeywordTable.

(** The members of [enum KeywordType]. *)
Module KeywordType.
Definition ShortTail : string := "Short Tail".
Definition LongTail : string := "Long Tail".
Definition Question : string := "Question".
Definition Commercial : string := "Commercial".
End KeywordType.

(** The [switch] of [getIntentColor]: strict equality with each member of
    the enum in turn, then [default]. *)
Definition getIntentColor (intent : string) : string :=
  if String.eqb intent SearchIntent.Informational
  then "bg-blue-100 text-blue-700 border-blue-200"
  else if String.eqb intent SearchIntent.Transactional
  then "bg-emerald-100 text-emerald-700 border-emerald-200"
  else if String.eqb intent SearchIntent.Commercial
  then "bg-purple-100 text-purple-700 border-purple-200"
  else if String.eqb intent SearchIntent.Navigational
  then "bg-amber-100 text-amber-700 border-amber-200"
  else "bg-slate-100 text-slate-700".

Definition getScoreColor (score : Z) : string :=
  if 80 <=? score then "text-emerald-600 font-bold"
  else if 50 <=? score then "text-amber-600 font-medium"
  else "text-slate-500".

(** What [SortIcon] returns: an invisible placeholder, or an arrow. *)
Inductive Icon : Type := Placeholder | ArrowUp | ArrowDown.

Definition SortIcon (st : State) (field : SortField) : Icon :=
  if negb (SortField_eqb (sortField st) field) then Placeholder
  else match sortDirection st with asc => ArrowUp | desc => ArrowDown end.

(** The class of the score bar: [priorityScore > 70 ? ... : ...]. *)
Definition barColor (score : Z) : string :=
  if 70 <? score then "bg-emerald-500" else "bg-indigo-500".

(** One [<tr>] of the body, with what varies from row to row. *)
Record Row : Type := mkRow {
  key : nat;
  keywordCell : string;
  typeCell : string;
  intentClass : string;
  intentCell : string;
  barClass : string;
  barWidth : string;
  scoreClass : string;
  scoreCell : string;
  importanceCell : string
}.

Definition renderRow (index : nat) (row : KeywordEntry) : Row :=
  {| key := index;
     keywordCell := keyword row;
     typeCell := keywordType row;
     intentClass := getIntentColor (searchIntent row);
     intentCell := searchIntent row;
     barClass := barColor (priorityScore row);
     barWidth := JS.Number_toString (priorityScore row) ++ "%";
     scoreClass := getScoreColor (priorityScore row);
     scoreCell := JS.Number_toString (priorityScore row);
     importanceCell := importance row |}.

(** [array.map((row, index) => ...)]. *)
Fixpoint mapWithIndex {A B : Type} (f : nat -> A -> B) (from : nat)
         (l : list A) : list B :=
  match l with
  | [] => []
  | x :: l' => f from x :: mapWithIndex f (S from) l'
  end.

(** [sortedData.map(...)]: the rows of the body. *)
Definition bodyRows (st : State) (data : list KeywordEntry) : list Row :=
  mapWithIndex renderRow 0%nat (sortedData st data).

(** [sortedData.length === 0 && <tr>No keywords found ...</tr>]. *)
Definition showsNoKeywordsRow (st : State) (data : list KeywordEntry)
  : bool :=
  Nat.eqb (List.length (sortedData st data)) 0.

(** The text of the footer: [Showing {sortedData.length} keywords]. *)
Definition footer (st : State) (data : list KeywordEntry) : string :=
  "Showing " ++
  JS.Number_toString (Z.of_nat (List.length (sortedData st data))) ++
  " keywords".

(** The [value]s of the [<option>]s of the intent select. *)
Definition intentOptions : list string :=
  [ "All"; SearchIntent.Informational; SearchIntent.Commercial;
    SearchIntent.Transactional; SearchIntent.Navigational ].

(** The headers that carry an [onClick]; the last column has none. *)
Definition clickableHeaders : list SortField :=
  [ f_keyword; f_keywordType; f_searchIntent; f_priorityScore ].

(** What the user can do to the table. *)
Inductive Event : Type :=
| ClickHeader (field : SortField)
| EditSearch (text : string)
| SelectIntent (option : string).

(** The handlers: [handleSort], [setSearchTerm], [setFilterIntent].  An
    event the page does not offer (a header without a handler, a value the
    select does not list) has no successor. *)
Definition step (st : State) (e : Event) : option State :=
  match e with
  | ClickHeader field =>
      if existsb (SortField_eqb field) clickableHeaders
      then Some (handleSort st field) else None
  | EditSearch text =>
      Some {| searchTerm := text; sortField := sortField st;
              sortDirection := sortDirection st;
              filterIntent := filterIntent st |}
  | SelectIntent option =>
      if existsb (String.eqb option) intentOptions
      then Some {| searchTerm := searchTerm st; sortField := sortField st;
                   sortDirection := sortDirection st;
                   filterIntent := option |}
      else None
  end.

Fixpoint run (st : State) (events : list Event) : option State :=
  match events with
  | [] => Some st
  | e :: events' =>
      match step st e with
      | Some st' => run st' events'
      | None => None
      end
  end.

End TableView.

(* ===================================================================== *)
(** * The charts ([Dashboard]) *)
(* ===================================================================== *)

Module Dashboard.
Import Types.

Definition COLORS : list string :=
  [ "#3b82f6"; "#8b5cf6"; "#ec4899"; "#10b981" ].

(** [COLORS[index % COLORS.length]]; [None] stands for [undefined]. *)
Definition fill (index : nat) : option string :=
  nth_error COLORS (index mod List.length COLORS).

(** [{entry.value}] as text. *)
Definition valueText (v : JS.value) : string :=
  match v with
  | JS.VNum n => JS.Number_toString n
  | JS.VStr s => s
  end.

(** One item of the legend under the donut. *)
Record LegendItem : Type := mkLegendItem {
  key : string;
  backgroundColor : option string;
  label : string
}.

Definition legendItem (index : nat) (entry : DistributionEntry)
  : LegendItem :=
  {| key := name entry;
     backgroundColor := fill index;
     label := name entry ++ " (" ++ valueText (value entry) ++ ")" |}.

(** The colours of the cells of the donut, in order. *)
Definition cellFills (stats : GenerationStats) : list (option string) :=
  TableView.mapWithIndex (fun index _ => fill index) 0%nat
                         (intentDistribution stats).

Definition legend (stats : GenerationStats) : list LegendItem :=
  TableView.mapWithIndex legendItem 0%nat (intentDistribution stats).

End Dashboard.

(* ===================================================================== *)
(** * The page around the results ([App.tsx], the JSX) *)
(* ===================================================================== *)

Module AppView.
Import Types App.

(** [disabled={loading}] on the input. *)
Definition inputDisabled (st : State) : bool := loading st.

(** [disabled={loading || !seedKeyword.trim()}] on the button. *)
Definition buttonDisabled (st : State) : bool :=
  loading st || negb (JS.truthy (JS.trim (seedKeyword st))).

(** [!hasSearched]: the headline and the suggestions are drawn. *)
Definition showsHero (st : State) : bool := negb (hasSearched st).

(** [error && ...]: the error box is drawn. *)
Definition showsError (st : State) : bool :=
  match error st with Some m => JS.truthy m | None => false end.

(** The three suggestion buttons. *)
Definition suggestions : list string :=
  [ "digital marketing"; "vegan recipes"; "home workout" ].

Definition setSeedKeyword (st : State) (v : string) : State :=
  {| seedKeyword := v; keywords := keywords st; loading := loading st;
     error := error st; hasSearched := hasSearched st |}.

(** The page with the calls to the client that have not settled yet. *)
Record Page : Type := mkPage {
  ui : State;
  pending : nat
}.

Definition start : Page := {| ui := initial; pending := 0%nat |}.

Inductive Event : Type :=
| TypeSeed (v : string)
| ClickSuggestion (v : string)
| SubmitForm
| Settle (r : JS.outcome (list KeywordEntry)).

(** What each event does, when the page offers it: typing needs the input
    enabled, a suggestion needs its button drawn, the form is submitted
    through its button, which must be enabled, and a call settles only
    while one is pending. *)
Definition step (p : Page) (e : Event) : option Page :=
  match e with
  | TypeSeed v =>
      if inputDisabled (ui p) then None
      else Some {| ui := setSeedKeyword (ui p) v; pending := pending p |}
  | ClickSuggestion v =>
      if showsHero (ui p) && existsb (String.eqb v) suggestions
      then Some {| ui := setSeedKeyword (ui p) v; pending := pending p |}
      else None
  | SubmitForm =>
      if buttonDisabled (ui p) then None
      else match submit (ui p) with
           | Some st1 => Some {| ui := st1; pending := S (pending p) |}
           | None => Some p
           end
  | Settle r =>
      match pending p with
      | O => None
      | S n => Some {| ui := settle (ui p) r; pending := n |}
      end
  end.

Fixpoint run (p : Page) (events : list Event) : option Page :=
  match events with
  | [] => Some p
  | e :: events' =>
      match step p e with
      | Some p' => run p' events'
      | None => None
      end
  end.

End AppView.

(* ===================================================================== *)
(** * Vocabulary of the statements and sample data *)
(* ===================================================================== *)

Import Types.

(** ** Sample entries *)

(** The two entries of the specification's example, and two more. *)
Definition buyCoffee : KeywordEntry :=
  {| keyword := "buy coffee"; keywordType := "Commercial";
     searchIntent := "Transactional"; priorityScore := 90;
     importance := "high intent" |}.

Definition whatIsCoffee : KeywordEntry :=
  {| keyword := "what is coffee"; keywordType := "Question";
     searchIntent := "Informational"; priorityScore := 40;
     importance := "awareness" |}.

Definition bestCoffee : KeywordEntry :=
  {| keyword := "Best Coffee Beans"; keywordType := "Commercial";
     searchIntent := "Commercial"; priorityScore := 75;
     importance := "buyer keyword" |}.

Definition coffeeGrinder : KeywordEntry :=
  {| keyword := "coffee grinder price"; keywordType := "Long Tail";
     searchIntent := "Commercial"; priorityScore := 82;
     importance := "ready to buy" |}.

(** An answer of the service whose intent is the string [__proto__]. *)
Definition protoIntent : KeywordEntry :=
  {| keyword := "prototype pattern"; keywordType := "Question";
     searchIntent := "__proto__"; priorityScore := 50;
     importance := "niche" |}.

(** An answer whose keyword type is the string [constructor]. *)
Definition constructorType : KeywordEntry :=
  {| keyword := "constructor injection"; keywordType := "constructor";
     searchIntent := "Informational"; priorityScore := 61;
     importance := "developer query" |}.

(** Two answers whose intents are the strings [10] and [9]. *)
Definition intentTen : KeywordEntry :=
  {| keyword := "top 10 coffee"; keywordType := "Long Tail";
     searchIntent := "10"; priorityScore := 30; importance := "list" |}.

(** The second of them. *)
Definition intentNine : KeywordEntry :=
  {| keyword := "9 bar espresso"; keywordType := "Long Tail";
     searchIntent := "9"; priorityScore := 20; importance := "gear" |}.

(** One transactional entry first, then two commercial ones. *)
Definition threeEntries : list KeywordEntry :=
  [buyCoffee; bestCoffee; coffeeGrinder].

(** What the aggregator returns for them. *)
Definition threeEntriesStats : GenerationStats :=
  {| totalKeywords := 3;
     avgPriority := 82;
     intentDistribution :=
       [ {| name := "Transactional"; value := JS.VNum 1 |};
         {| name := "Commercial"; value := JS.VNum 2 |} ];
     typeDistribution :=
       [ {| name := "Commercial"; value := JS.VNum 2 |};
         {| name := "Long Tail"; value := JS.VNum 1 |} ] |}.

(** An entry with the score of [whatIsCoffee]. *)
Definition coldBrew : KeywordEntry :=
  {| keyword := "cold brew ratio"; keywordType := "Long Tail";
     searchIntent := "Informational"; priorityScore := 40;
     importance := "how-to traffic" |}.

(** An entry whose intent is spelled in lower case, outside the enum. *)
Definition offEnum : KeywordEntry :=
  {| keyword := "coffee near me"; keywordType := "Short Tail";
     searchIntent := "navigational"; priorityScore := 77;
     importance := "local" |}.

Section TableVocabulary.
Import KeywordTable.

(** The other direction. *)
Definition flip (d : SortDirection) : SortDirection :=
  match d with asc => desc | desc => asc end.

(** The keyword contains the term once both are put in lower case. *)
Definition containsIgnoringCase (kw term : string) : Prop :=
  exists pre post,
    JS.toLowerCase kw = pre ++ JS.toLowerCase term ++ post.

(** The entries the filter is meant to keep. *)
Definition kept (st : State) (e : KeywordEntry) : Prop :=
  containsIgnoringCase (keyword e) (searchTerm st) /\
  (filterIntent st = "All" \/ searchIntent e = filterIntent st).

(** The table with the intent filter set to [Commercial]. *)
Definition commercialOnly : State :=
  {| searchTerm := ""; sortField := f_priorityScore;
     sortDirection := desc; filterIntent := "Commercial" |}.

(** The table with a search term in capitals. *)
Definition searchCOFFEE : State :=
  {| searchTerm := "COFFEE b"; sortField := f_priorityScore;
     sortDirection := desc; filterIntent := "All" |}.

(** An entry whose fields hold double quotes of their own. *)
Definition quoted : KeywordEntry :=
  {| keyword := "13" ++ JS.dquote ++ " laptop";
     keywordType := "Long Tail";
     searchIntent := "Commercial";
     priorityScore := 7;
     importance := "says " ++ JS.dquote ++ "buy" ++ JS.dquote |}.

(** The table state with the sort direction set to [d]. *)
Definition withDirection (st : State) (d : SortDirection) : State :=
  {| searchTerm := searchTerm st; sortField := sortField st;
     sortDirection := d; filterIntent := filterIntent st |}.

(** The comparison of two strings by code units, as a number. *)
Definition signOf (c : comparison) : Z :=
  match c with Lt => -1 | Eq => 0 | Gt => 1 end.

(** The two fields as the lower-case strings the comparator compares. *)
Definition lowered (f : SortField) (a : KeywordEntry) : string :=
  JS.toLowerCase (String_of (field_of f a)).

(** The table sorted by keyword. *)
Definition byKeyword : State :=
  {| searchTerm := ""; sortField := f_keyword;
     sortDirection := desc; filterIntent := "All" |}.
End TableVocabulary.

Section ShellVocabulary.
Import App.

(** A state left by an earlier failure. *)
Definition afterFailure : State :=
  {| seedKeyword := " coffee "; keywords := [buyCoffee]; loading := false;
     error := Some "boom"; hasSearched := true |}.

(** The same state with a seed of blanks. *)
Definition blankSeed : State :=
  {| seedKeyword := "   "; keywords := [buyCoffee]; loading := false;
     error := Some "boom"; hasSearched := true |}.

(** [r] is [q] rounded to the nearest integer, a tie going up. *)
Definition rounds_half_up (q : Q) (r : Z) : Prop :=
  (inject_Z r - (1 # 2) <= q /\ q < inject_Z r + (1 # 2))%Q.

(** The sum of the scores. *)
Definition sumScores (keywords : list KeywordEntry) : Z :=
  fold_right Z.add 0 (List.map priorityScore keywords).

(** The mean of the scores, as a fraction. *)
Definition meanScore (keywords : list KeywordEntry) : Q :=
  (inject_Z (sumScores keywords)
   / inject_Z (Z.of_nat (List.length keywords)))%Q.

(** The names of the own properties, in creation order. *)
Definition keys (o : JS.object) : list string := List.map fst o.

(** [k] is one of the names of [l]. *)
Definition mem (k : string) (l : list string) : bool :=
  existsb (String.eqb k) l.

(** The categories of a list in the order each is first seen. *)
Fixpoint firstSeen (l : list string) : list string :=
  match l with
  | [] => []
  | x :: t => x :: List.filter (fun y => negb (String.eqb y x)) (firstSeen t)
  end.

(** The sum of a list of values that are all numbers. *)
Fixpoint sumNumbers (l : list JS.value) : option Z :=
  match l with
  | [] => Some 0
  | JS.VNum n :: l' =>
      match sumNumbers l' with Some m => Some (n + m) | None => None end
  | JS.VStr _ :: _ => None
  end.

(** The sum of the [value] fields of a distribution. *)
Definition sumValues (d : list DistributionEntry) : option Z :=
  sumNumbers (List.map value d).

(** No category of the list is a property name of [Object.prototype]. *)
Definition plainNames (keywords : list KeywordEntry) : bool :=
  List.forallb (fun k => negb (JS.inherited k))
               (List.map searchIntent keywords) &&
  List.forallb (fun k => negb (JS.inherited k))
               (List.map keywordType keywords).

(** The order of two array indices. *)
Definition byIndex (a b : string) : Z := JS.index_of a - JS.index_of b.

(** The order [Object.entries] gives to names created in the order [l]:
    the array indices first, ascending, then the other names as they
    come. *)
Definition indicesFirst (l : list string) : list string :=
  (JS.Array_sort byIndex (List.filter JS.is_array_index l)
   ++ List.filter (fun k => negb (JS.is_array_index k)) l)%list.

(** The count an entry carries. *)
Definition countOf (e : DistributionEntry) : Z :=
  match value e with JS.VNum n => n | JS.VStr _ => 0 end.

(** The entry's [value] is a number, as [GenerationStats] declares. *)
Definition numeric (e : DistributionEntry) : Prop :=
  exists n, value e = JS.VNum n.

(** Counts never increase along the array. *)
Definition descending (d : list DistributionEntry) : Prop :=
  StronglySorted (fun a b => countOf b <= countOf a) d.
End ShellVocabulary.

Section ViewVocabulary.
Import KeywordTable TableView.

(** The four members of [enum SearchIntent]. *)
Definition intentMembers : list string :=
  [ SearchIntent.Informational; SearchIntent.Commercial;
    SearchIntent.Transactional; SearchIntent.Navigational ].

(** What every state the table can reach satisfies. *)
Definition offered (st : State) : Prop :=
  In (sortField st) clickableHeaders /\ In (filterIntent st) intentOptions.

(** How many line feeds a string holds. *)
Fixpoint lineFeeds (s : string) : nat :=
  match s with
  | EmptyString => 0
  | String c s' => (if Ascii.eqb c "010"%char then 1 else 0) + lineFeeds s'
  end.

(** The line feeds inside the four text fields of an entry. *)
Definition fieldLineFeeds (row : KeywordEntry) : nat :=
  lineFeeds (keyword row) + lineFeeds (keywordType row) +
  lineFeeds (searchIntent row) + lineFeeds (importance row).
End ViewVocabulary.

Section PageVocabulary.
Import App AppView.

(** What holds of the page whatever the user and the service do. *)
Definition coherent (p : Page) : Prop :=
  pending p = (if loading (ui p) then 1 else 0)%nat /\
  (loading (ui p) = true ->
   keywords (ui p) = [] /\ error (ui p) = None /\
   hasSearched (ui p) = true) /\
  (forall m, error (ui p) = Some m ->
             m <> "" /\ keywords (ui p) = [] /\ hasSearched (ui p) = true) /\
  (hasSearched (ui p) = false ->
   keywords (ui p) = [] /\ error (ui p) = None).

(** How many times [k] stands in [l]. *)
Definition occurrences (k : string) (l : list string) : Z :=
  Z.of_nat (count_occ string_dec l k).

(** The counter object after the names of [l] have been counted. *)
Definition counted (o : JS.object) (l : list string) : Prop :=
  forall k, JS.own o k = if occurrences k l =? 0 then None
                         else Some (JS.VNum (occurrences k l)).
End PageVocabulary.

(* ===================================================================== *)
(** * Properties of the results table *)
(* ===================================================================== *)

Section HandleSort.
Import KeywordTable.

Lemma SortField_eqb_eq a b : SortField_eqb a b = true <-> a = b.
Proof. destruct a, b; simpl; split; congruence. Qed.

(** C7. A click on the header of the active sort field flips the direction
    and keeps the field; a click on another header makes that column the
    sort field and sets the direction to descending.  The search term and
    the intent filter are untouched either way. *)
Theorem handleSort_toggles_or_resets (st : State) (field : SortField) :
  (field = sortField st ->
     sortField (handleSort st field) = sortField st /\
     sortDirection (handleSort st field) = flip (sortDirection st)) /\
  (field <> sortField st ->
     sortField (handleSort st field) = field /\
     sortDirection (handleSort st field) = desc) /\
  searchTerm (handleSort st field) = searchTerm st /\
  filterIntent (handleSort st field) = filterIntent st.
Proof.
  unfold handleSort.
  destruct (SortField_eqb field (sortField st)) eqn:E.
  - apply SortField_eqb_eq in E. subst field. simpl.
    split; [ intros _; now split | ].
    split; [ intros H; now contradiction H | now split ].
  - assert (field <> sortField st) as N.
    { intros H. apply SortField_eqb_eq in H. congruence. }
    simpl. split; [ intros H; now contradiction N | ].
    split; [ intros _; now split | now split ].
Qed.

Lemma handleSort_toggles_or_resets_witness :
  (sortField (handleSort initial f_priorityScore) = f_priorityScore /\
   sortDirection (handleSort initial f_priorityScore) = asc) /\
  (sortField (handleSort initial f_keyword) = f_keyword /\
   sortDirection (handleSort initial f_keyword) = desc).
Proof.
  split.
  - apply (proj1 (handleSort_toggles_or_resets initial f_priorityScore)).
    reflexivity.
  - apply (proj1 (proj2 (handleSort_toggles_or_resets initial f_keyword))).
    discriminate.
Defined.

(** Two clicks on the active column bring the direction back. *)
Lemma handleSort_twice (st : State) :
  handleSort (handleSort st (sortField st)) (sortField st) = st.
Proof.
  unfold handleSort.
  destruct st as [t f d i]; simpl.
  assert (SortField_eqb f f = true) as -> by now apply SortField_eqb_eq.
  simpl.
  assert (SortField_eqb f f = true) as -> by now apply SortField_eqb_eq.
  now destruct d.
Qed.
End HandleSort.

Section Filter.
Import KeywordTable.

Lemma prefix_iff (sub s : string) :
  String.prefix sub s = true <-> exists post, s = sub ++ post.
Proof.
  revert s. induction sub as [ | c sub IH ]; intros s.
  - destruct s; simpl; split; eauto.
  - destruct s as [ | d s ]; simpl.
    + split; [ discriminate | intros [post H]; discriminate ].
    + destruct (ascii_dec c d) as [ -> | N ].
      * rewrite IH. split; intros [post H]; exists post.
        -- now rewrite H.
        -- now injection H.
      * split; [ discriminate | ].
        intros [post H]. injection H as H1 H2. congruence.
Qed.

(** [includes] is occurrence as a contiguous run of code units. *)
Lemma includes_iff (s sub : string) :
  JS.includes s sub = true <-> exists pre post, s = pre ++ sub ++ post.
Proof.
  induction s as [ | c s IH ]; cbn [JS.includes].
  - rewrite orb_false_r, prefix_iff. split.
    + intros [post H]. now exists EmptyString, post.
    + intros [pre [post H]]. destruct pre; simpl in H.
      * now exists post.
      * discriminate.
  - rewrite orb_true_iff, prefix_iff, IH. split.
    + intros [[post H] | [pre [post H]]].
      * now exists EmptyString, post.
      * exists (String c pre), post. simpl. now rewrite H.
    + intros [pre [post H]]. destruct pre as [ | d pre ]; simpl in H.
      * left. now exists post.
      * right. injection H as _ H. now exists pre, post.
Qed.

Lemma toLowerCase_unit_idem (c : ascii) :
  JS.toLowerCase_unit (JS.toLowerCase_unit c) = JS.toLowerCase_unit c.
Proof. destruct c as [[] [] [] [] [] [] [] []]; reflexivity. Qed.

(** Lower case is reached in one step, so the test sees neither the case of
    the keyword nor that of the search term. *)
Lemma toLowerCase_idem (s : string) :
  JS.toLowerCase (JS.toLowerCase s) = JS.toLowerCase s.
Proof.
  induction s as [ | c s IH ]; simpl.
  - reflexivity.
  - now rewrite toLowerCase_unit_idem, IH.
Qed.

Lemma containsIgnoringCase_lower (kw term : string) :
  containsIgnoringCase (JS.toLowerCase kw) (JS.toLowerCase term)
  <-> containsIgnoringCase kw term.
Proof. unfold containsIgnoringCase. now rewrite !toLowerCase_idem. Qed.

Lemma keep_iff (st : State) (e : KeywordEntry) :
  matchesSearch st e && matchesIntent st e = true <-> kept st e.
Proof.
  unfold kept, containsIgnoringCase, matchesSearch, matchesIntent.
  rewrite andb_true_iff, orb_true_iff, includes_iff.
  now rewrite !String.eqb_eq.
Qed.

(** C2. The filtered view keeps exactly the entries whose keyword contains
    the search term, case ignored, and whose intent is the selected one,
    the intent being ignored under the filter [All]: it walks the list in
    order, keeps an entry that qualifies and drops one that does not.  With
    the filter [Commercial] every row of the view has that intent, and with
    an empty search term every such entry of the list is in the view. *)
Theorem filteredData_keeps_exactly (st : State) (data : list KeywordEntry) :
  filteredData st [] = [] /\
  (forall e, kept st e ->
     filteredData st (e :: data) = e :: filteredData st data) /\
  (forall e, ~ kept st e ->
     filteredData st (e :: data) = filteredData st data) /\
  (forall e, In e (filteredData st data) <-> In e data /\ kept st e) /\
  (filterIntent st = SearchIntent.Commercial ->
     Forall (fun e => searchIntent e = SearchIntent.Commercial)
            (filteredData st data) /\
     (searchTerm st = "" ->
        forall e, In e data -> searchIntent e = SearchIntent.Commercial ->
                  In e (filteredData st data))).
Proof.
  unfold filteredData. split; [ reflexivity | ].
  split.
  { intros e K. apply keep_iff in K. simpl. now rewrite K. }
  split.
  { intros e K. simpl.
    destruct (matchesSearch st e && matchesIntent st e) eqn:E.
    - apply keep_iff in E. contradiction.
    - reflexivity. }
  split.
  { intros e. now rewrite filter_In, keep_iff. }
  intros HC. split.
  - apply List.Forall_forall. intros e H. apply filter_In in H as [_ H].
    apply keep_iff in H as [_ [H | H]].
    + rewrite HC in H. discriminate.
    + now rewrite H.
  - intros HT e Hin He. apply filter_In. split; [ assumption | ].
    apply keep_iff. split.
    + rewrite HT. exists EmptyString, (JS.toLowerCase (keyword e)).
      reflexivity.
    + right. now rewrite He.
Qed.

Lemma filteredData_keeps_exactly_witness :
  filteredData searchCOFFEE [bestCoffee; buyCoffee]
    = bestCoffee :: filteredData searchCOFFEE [buyCoffee] /\
  filteredData searchCOFFEE [buyCoffee; bestCoffee]
    = filteredData searchCOFFEE [bestCoffee] /\
  Forall (fun e => searchIntent e = SearchIntent.Commercial)
         (filteredData commercialOnly
                       [buyCoffee; bestCoffee; whatIsCoffee]) /\
  In bestCoffee
     (filteredData commercialOnly [buyCoffee; bestCoffee; whatIsCoffee]).
Proof.
  split; [ | split; [ | split ] ].
  - apply (proj1 (proj2 (filteredData_keeps_exactly
                           searchCOFFEE [buyCoffee]))).
    apply keep_iff. reflexivity.
  - apply (proj1 (proj2 (proj2 (filteredData_keeps_exactly
                                  searchCOFFEE [bestCoffee])))).
    intros K. apply keep_iff in K. discriminate K.
  - apply (proj2 (proj2 (proj2 (proj2 (filteredData_keeps_exactly
             commercialOnly [buyCoffee; bestCoffee; whatIsCoffee]))))).
    reflexivity.
  - apply (proj2 (proj2 (proj2 (proj2 (filteredData_keeps_exactly
             commercialOnly [buyCoffee; bestCoffee; whatIsCoffee]))))).
    + reflexivity.
    + reflexivity.
    + simpl. tauto.
    + reflexivity.
Defined.
End Filter.

Section Csv.
Import KeywordTable.

(** C4. The exported text is the header line
    [Keyword,Type,Intent,Score,Importance] followed by one line per row of
    the filtered and sorted view, lines separated by a line feed; a data
    line puts the four string fields between double quotes exactly as they
    are, whatever they contain, and the score as its bare digits.  When the
    view has exactly one row the text is the header line, a line feed and
    that row's line. *)
Theorem csvContent_of_view (st : State) (data : list KeywordEntry) :
  csvContent st data
    = JS.join JS.newline
        ("Keyword,Type,Intent,Score,Importance"
           :: List.map csvRow (sortedData st data)) /\
  (forall kw ty it sc im,
     csvRow {| keyword := kw; keywordType := ty; searchIntent := it;
               priorityScore := sc; importance := im |}
     = JS.dquote ++ kw ++ JS.dquote ++ "," ++
       JS.dquote ++ ty ++ JS.dquote ++ "," ++
       JS.dquote ++ it ++ JS.dquote ++ "," ++
       JS.Number_toString sc ++ "," ++
       JS.dquote ++ im ++ JS.dquote) /\
  (forall row, sortedData st data = [row] ->
     csvContent st data
     = "Keyword,Type,Intent,Score,Importance" ++ JS.newline ++ csvRow row).
Proof.
  split; [ reflexivity | ].
  split; [ reflexivity | ].
  intros row H. unfold csvContent. rewrite H. reflexivity.
Qed.

Lemma csvContent_of_view_witness :
  sortedData commercialOnly [buyCoffee; quoted; whatIsCoffee] = [quoted] /\
  csvContent commercialOnly [buyCoffee; quoted; whatIsCoffee]
  = "Keyword,Type,Intent,Score,Importance" ++ JS.newline ++
    JS.dquote ++ "13" ++ JS.dquote ++ " laptop" ++ JS.dquote ++ "," ++
    JS.dquote ++ "Long Tail" ++ JS.dquote ++ "," ++
    JS.dquote ++ "Commercial" ++ JS.dquote ++ "," ++
    "7" ++ "," ++
    JS.dquote ++ "says " ++ JS.dquote ++ "buy" ++ JS.dquote ++ JS.dquote.
Proof.
  split; [ reflexivity | ].
  apply (proj2 (proj2 (csvContent_of_view
                         commercialOnly
                         [buyCoffee; quoted; whatIsCoffee])) quoted).
  reflexivity.
Defined.

(** The export hands over that text under the name [keywords.csv]. *)
Lemma downloadCSV_content (st : State) (data : list KeywordEntry) :
  downloadCSV true st data
  = Some {| download := "keywords.csv";
            mimeType := "text/csv;charset=utf-8;";
            content := csvContent st data |}.
Proof. reflexivity. Qed.
End Csv.

(* ===================================================================== *)
(** * Properties of the application shell *)
(* ===================================================================== *)

Section Shell.
Import App.

Lemma truthy_iff (s : string) : JS.truthy s = true <-> s <> "".
Proof. destruct s; simpl; split; congruence. Qed.

Lemma messageOf_nonempty (err : JS.Error) : messageOf err <> "".
Proof.
  unfold messageOf. destruct (JS.message err) as [m | ].
  - destruct (JS.truthy m) eqn:E.
    + now apply truthy_iff.
    + discriminate.
  - discriminate.
Qed.

(** A seed with something left after trimming passes the guard: the four
    setters run, and the handler goes on from the state they leave. *)
Lemma submit_passes
      (generateKeywords : string -> JS.outcome (list KeywordEntry))
      (st : State) :
  JS.trim (seedKeyword st) <> "" ->
  exists st1,
    submit st = Some st1 /\
    keywords st1 = [] /\ error st1 = None /\
    loading st1 = true /\ hasSearched st1 = true /\
    seedKeyword st1 = seedKeyword st /\
    handleGenerate generateKeywords st
    = settle st1 (generateKeywords (seedKeyword st)).
Proof.
  intros H. unfold handleGenerate, submit.
  apply truthy_iff in H. rewrite H. simpl.
  eexists. split; [ reflexivity | ]. simpl. repeat split.
Qed.

(** C9. A seed that is empty once trimmed changes nothing: the guard
    returns before any setter, so no call is started and the state after
    the handler is the state before it.  A seed that is not empty once
    trimmed moves the state, before the call settles, to one with no
    keywords, no error and [loading] set, whatever the state was; the
    handler's final state is that state once the call has settled. *)
Theorem submit_guard_and_reset
        (generateKeywords : string -> JS.outcome (list KeywordEntry))
        (st : State) :
  (JS.trim (seedKeyword st) = "" ->
     submit st = None /\ handleGenerate generateKeywords st = st) /\
  (JS.trim (seedKeyword st) <> "" ->
     exists st1,
       submit st = Some st1 /\
       keywords st1 = [] /\ error st1 = None /\
       loading st1 = true /\ hasSearched st1 = true /\
       seedKeyword st1 = seedKeyword st /\
       handleGenerate generateKeywords st
       = settle st1 (generateKeywords (seedKeyword st))).
Proof.
  split.
  - intros H. unfold handleGenerate, submit. rewrite H. simpl. now split.
  - apply submit_passes.
Qed.

Lemma submit_guard_and_reset_witness :
  (submit blankSeed = None /\
   handleGenerate (fun _ => JS.Returned [whatIsCoffee]) blankSeed
   = blankSeed) /\
  (exists st1,
     submit afterFailure = Some st1 /\
     keywords st1 = [] /\ error st1 = None /\
     loading st1 = true /\ hasSearched st1 = true /\
     seedKeyword st1 = seedKeyword afterFailure /\
     handleGenerate (fun _ => JS.Returned [whatIsCoffee]) afterFailure
     = settle st1 (JS.Returned [whatIsCoffee])).
Proof.
  split.
  - apply (proj1 (submit_guard_and_reset
                    (fun _ => JS.Returned [whatIsCoffee]) blankSeed)).
    reflexivity.
  - apply (proj2 (submit_guard_and_reset
                    (fun _ => JS.Returned [whatIsCoffee]) afterFailure)).
    discriminate.
Defined.

Section Failure.
Variable prompt : string -> string.
Variable generateContent : string -> JS.outcome (option string).
Variable JSON_parse : string -> JS.outcome (list KeywordEntry).

Let client := GeminiService.generateKeywords prompt generateContent
                                             JSON_parse.

(** C5. The client throws when the service answers with no text
    (undefined, or the empty string).  Whenever the client throws for a
    submitted seed, the handler ends in a state whose error is a
    non-empty message, the error's own message when it has a non-empty
    one and the generic message otherwise, with an empty keyword list
    and [loading] cleared. *)
Theorem generation_failure_surfaces (st : State) :
  (forall seed,
     generateContent (prompt seed) = JS.Returned None \/
     generateContent (prompt seed) = JS.Returned (Some "") ->
     client seed = JS.Thrown GeminiService.noData) /\
  (forall err,
     JS.trim (seedKeyword st) <> "" ->
     client (seedKeyword st) = JS.Thrown err ->
     let st' := handleGenerate client st in
     exists m,
       error st' = Some m /\ m <> "" /\
       (forall own, JS.message err = Some own -> own <> "" -> m = own) /\
       (JS.message err = None \/ JS.message err = Some "" ->
          m = fallbackMessage) /\
       keywords st' = [] /\ loading st' = false).
Proof.
  split.
  - intros seed [H | H]; unfold client, GeminiService.generateKeywords;
      now rewrite H.
  - intros err Hseed Hthrow st'.
    destruct (submit_passes client st Hseed)
      as (st1 & Hsub & Hk & _ & _ & _ & _ & Hrun).
    subst st'. rewrite Hrun, Hthrow. simpl.
    exists (messageOf err). split; [ reflexivity | ].
    split; [ apply messageOf_nonempty | ].
    split; [ | split; [ | now split ] ].
    + intros m Hm Hne. unfold messageOf. rewrite Hm.
      apply truthy_iff in Hne. now rewrite Hne.
    + unfold messageOf. now intros [-> | ->].
Qed.
End Failure.

Lemma generation_failure_surfaces_witness :
  GeminiService.generateKeywords (fun seed => seed)
                                 (fun _ => JS.Returned None)
                                 (fun _ => JS.Returned [buyCoffee])
                                 " coffee "
  = JS.Thrown GeminiService.noData /\
  (exists m,
     error (handleGenerate
              (GeminiService.generateKeywords
                 (fun seed => seed) (fun _ => JS.Returned None)
                 (fun _ => JS.Returned [buyCoffee]))
              afterFailure) = Some m /\
     m <> "" /\
     (forall own,
        JS.message GeminiService.noData = Some own -> own <> "" ->
        m = own) /\
     (JS.message GeminiService.noData = None \/
      JS.message GeminiService.noData = Some "" -> m = fallbackMessage) /\
     keywords (handleGenerate
                 (GeminiService.generateKeywords
                    (fun seed => seed) (fun _ => JS.Returned None)
                    (fun _ => JS.Returned [buyCoffee]))
                 afterFailure) = [] /\
     loading (handleGenerate
                (GeminiService.generateKeywords
                   (fun seed => seed) (fun _ => JS.Returned None)
                   (fun _ => JS.Returned [buyCoffee]))
                afterFailure) = false).
Proof.
  split.
  - apply (proj1 (generation_failure_surfaces
                    (fun seed => seed) (fun _ => JS.Returned None)
                    (fun _ => JS.Returned [buyCoffee]) afterFailure)).
    left. reflexivity.
  - apply (proj2 (generation_failure_surfaces
                    (fun seed => seed) (fun _ => JS.Returned None)
                    (fun _ => JS.Returned [buyCoffee]) afterFailure)
             GeminiService.noData).
    + discriminate.
    + reflexivity.
Defined.
End Shell.

(* ===================================================================== *)
(** * Properties of the aggregator *)
(* ===================================================================== *)

Section Aggregator.
Import App.

(** C6. For the empty keyword list the aggregator yields no statistics at
    all ([null]), not a record of zeros; and the empty list is the only one
    for which it does so.  Nothing is placed in the store either. *)
Theorem stats_absent_iff_empty :
  stats [] = None /\
  (forall keywords, stats keywords = None <-> keywords = []) /\
  (forall h, memo_stats [] h = (None, h)).
Proof.
  split; [ reflexivity | ]. split; [ | reflexivity ].
  intros [ | k l ]; simpl; split; congruence.
Qed.

(** ** The average *)

Lemma Math_round_half_up (q : Q) : rounds_half_up q (JS.Math_round q).
Proof.
  unfold rounds_half_up, JS.Math_round.
  pose proof (Qfloor_le (q + (1 # 2))) as Hle.
  pose proof (Qlt_floor (q + (1 # 2))) as Hlt.
  rewrite inject_Z_plus in Hlt.
  change (inject_Z 1) with 1%Q in Hlt.
  split; lra.
Qed.

(** Rounding half up has one answer. *)
Lemma rounds_half_up_unique (q : Q) (r r' : Z) :
  rounds_half_up q r -> rounds_half_up q r' -> r = r'.
Proof.
  intros [L1 U1] [L2 U2].
  assert (inject_Z r - (1 # 2) < inject_Z r' + (1 # 2))%Q as A
      by (eapply Qle_lt_trans; eassumption).
  assert (inject_Z r' - (1 # 2) < inject_Z r + (1 # 2))%Q as B
      by (eapply Qle_lt_trans; eassumption).
  unfold Qlt, Qminus, Qplus, Qopp, inject_Z in A, B. simpl in A, B. lia.
Qed.

(** In integers: the rounded quotient of [a] by a positive [b] is
    [2a + b] divided by [2b], rounded down. *)
Lemma Math_round_quotient (a b : Z) :
  0 < b ->
  JS.Math_round (inject_Z a / inject_Z b)%Q = (2 * a + b) / (2 * b).
Proof.
  intros Hb.
  apply (rounds_half_up_unique (inject_Z a / inject_Z b)%Q).
  - apply Math_round_half_up.
  - unfold rounds_half_up.
    assert (0 < inject_Z b)%Q as Hq by (unfold Qlt, inject_Z; simpl; lia).
    pose proof (Z.div_mod (2 * a + b) (2 * b) ltac:(lia)) as Hd.
    pose proof (Z.mod_pos_bound (2 * a + b) (2 * b) ltac:(lia)) as Hm.
    set (r := (2 * a + b) / (2 * b)) in *.
    set (m := (2 * a + b) mod (2 * b)) in *.
    split.
    + apply Qle_shift_div_l; [ exact Hq | ].
      unfold Qle, Qminus, Qplus, Qmult, Qopp, inject_Z. simpl. nia.
    + apply Qlt_shift_div_r; [ exact Hq | ].
      unfold Qlt, Qminus, Qplus, Qmult, Qopp, inject_Z. simpl. nia.
Qed.

Lemma totalScore_fold (l : list KeywordEntry) (t : Tally) :
  totalScore (fold_left tally_step l t) = totalScore t + sumScores l.
Proof.
  revert t. induction l as [ | k l IH ]; intros t; simpl.
  - unfold sumScores. simpl. lia.
  - rewrite IH. unfold sumScores. simpl. lia.
Qed.

Lemma totalScore_tally (l : list KeywordEntry) :
  totalScore (tally l) = sumScores l.
Proof. unfold tally. now rewrite totalScore_fold. Qed.

(** The average priority is the mean of the scores rounded half up, for
    every non-empty list; the total is the length of the list. *)
Lemma stats_avgPriority (keywords : list KeywordEntry) (s : GenerationStats) :
  stats keywords = Some s ->
  totalKeywords s = Z.of_nat (List.length keywords) /\
  avgPriority s = JS.Math_round (meanScore keywords) /\
  rounds_half_up (meanScore keywords) (avgPriority s) /\
  avgPriority s
  = (2 * sumScores keywords + totalKeywords s) / (2 * totalKeywords s).
Proof.
  destruct keywords as [ | k l ]; [ discriminate | ].
  unfold stats. intros H. injection H as <-.
  cbn [totalKeywords avgPriority]. rewrite totalScore_tally.
  split; [ reflexivity | ]. split; [ reflexivity | ].
  split; [ apply Math_round_half_up | ].
  apply Math_round_quotient. cbn [List.length]. lia.
Qed.
End Aggregator.

(* ===================================================================== *)
(** * Facts about [Array.prototype.sort] *)
(* ===================================================================== *)

Section SortFacts.
Context {A : Type}.

Lemma sort_insert_perm (cmp : A -> A -> Z) (x : A) (l : list A) :
  Permutation (x :: l) (JS.sort_insert cmp x l).
Proof.
  induction l as [ | y l IH ]; simpl.
  - apply Permutation_refl.
  - destruct (cmp x y <=? 0).
    + apply Permutation_refl.
    + eapply perm_trans; [ apply perm_swap | ].
      now apply perm_skip.
Qed.

(** Sorting rearranges the array and does nothing else. *)
Lemma Array_sort_perm (cmp : A -> A -> Z) (l : list A) :
  Permutation l (JS.Array_sort cmp l).
Proof.
  induction l as [ | x l IH ]; simpl.
  - apply perm_nil.
  - eapply perm_trans; [ apply perm_skip, IH | ].
    apply sort_insert_perm.
Qed.

Lemma sort_insert_ext (c1 c2 : A -> A -> Z) (x : A) (l : list A) :
  (forall y, In y l -> c1 x y = c2 x y) ->
  JS.sort_insert c1 x l = JS.sort_insert c2 x l.
Proof.
  induction l as [ | y l IH ]; intros H; simpl.
  - reflexivity.
  - rewrite (H y) by now left.
    rewrite IH; [ reflexivity | ].
    intros z Hz. apply H. now right.
Qed.

(** The result depends on the comparator only through its values on the
    elements of the array. *)
Lemma Array_sort_ext (c1 c2 : A -> A -> Z) (l : list A) :
  (forall x y, In x l -> In y l -> c1 x y = c2 x y) ->
  JS.Array_sort c1 l = JS.Array_sort c2 l.
Proof.
  induction l as [ | x l IH ]; intros H; simpl.
  - reflexivity.
  - rewrite IH by (intros; apply H; now right).
    apply sort_insert_ext. intros y Hy. apply H; [ now left | right ].
    eapply Permutation_in; [ apply Permutation_sym, Array_sort_perm | ].
    exact Hy.
Qed.

(** Sorting by a numeric key, ascending: [key a - key b]. *)
Section ByKey.
Variable key : A -> Z.

Let ascending (a b : A) : Z := key a - key b.

Lemma sort_insert_sorted (x : A) (l : list A) :
  StronglySorted (fun a b => key a <= key b) l ->
  StronglySorted (fun a b => key a <= key b)
                 (JS.sort_insert ascending x l).
Proof.
  induction l as [ | y l IH ]; intros S; simpl.
  - repeat constructor.
  - unfold ascending at 1.
    destruct (Z.leb_spec (key x - key y) 0) as [L | G].
    + constructor; [ assumption | ].
      inversion S as [ | ? ? S' F ]; subst.
      constructor; [ lia | ].
      eapply List.Forall_impl; [ | exact F ]. simpl. intros; lia.
    + inversion S as [ | ? ? S' F ]; subst.
      constructor; [ now apply IH | ].
      apply List.Forall_forall. intros z Hz.
      eapply Permutation_in in Hz;
        [ | apply Permutation_sym, sort_insert_perm ].
      destruct Hz as [ <- | Hz ]; [ lia | ].
      rewrite List.Forall_forall in F. now apply F.
Qed.

Lemma Array_sort_sorted (l : list A) :
  StronglySorted (fun a b => key a <= key b)
                 (JS.Array_sort ascending l).
Proof.
  induction l as [ | x l IH ]; simpl.
  - constructor.
  - now apply sort_insert_sorted.
Qed.
End ByKey.

(** A list with pairwise distinct keys that is sorted is strictly so. *)
Lemma sorted_distinct_strict (key : A -> Z) (l : list A) :
  List.NoDup (List.map key l) ->
  StronglySorted (fun a b => key a <= key b) l ->
  StronglySorted (fun a b => key a < key b) l.
Proof.
  induction l as [ | x l IH ]; intros N S.
  - constructor.
  - inversion N as [ | ? ? Hx N' ]; subst.
    inversion S as [ | ? ? S' F ]; subst.
    constructor; [ now apply IH | ].
    rewrite List.Forall_forall in *. intros y Hy.
    specialize (F y Hy).
    assert (key x <> key y).
    { intros E. apply Hx. rewrite E. now apply in_map. }
    lia.
Qed.

Lemma sorted_snoc (R : A -> A -> Prop) (l : list A) (x : A) :
  StronglySorted R l -> Forall (fun y => R y x) l ->
  StronglySorted R (l ++ [x]).
Proof.
  induction l as [ | y l IH ]; intros S F; simpl.
  - repeat constructor.
  - inversion S as [ | ? ? S' F' ]; subst.
    inversion F as [ | ? ? Ryx F'' ]; subst.
    constructor; [ now apply IH | ].
    apply Forall_app. split; [ assumption | now constructor ].
Qed.

(** Reading a sorted list backwards sorts it the other way. *)
Lemma sorted_rev (R : A -> A -> Prop) (l : list A) :
  StronglySorted R l -> StronglySorted (fun a b => R b a) (rev l).
Proof.
  induction 1 as [ | x l S IH F ]; simpl.
  - constructor.
  - apply sorted_snoc; [ assumption | ].
    apply List.Forall_forall. intros y Hy. apply in_rev in Hy.
    rewrite List.Forall_forall in F. now apply F.
Qed.

(** Two arrangements of the same elements that are both strictly sorted
    are the same list. *)
Lemma sorted_perm_unique (R : A -> A -> Prop) (l1 l2 : list A) :
  (forall a b, R a b -> R b a -> False) ->
  Permutation l1 l2 ->
  StronglySorted R l1 -> StronglySorted R l2 -> l1 = l2.
Proof.
  intros Asym. revert l2.
  induction l1 as [ | a t1 IH ]; intros l2 P S1 S2.
  - apply Permutation_nil in P. now subst.
  - destruct l2 as [ | b t2 ].
    + apply Permutation_sym, Permutation_nil in P. discriminate.
    + inversion S1 as [ | ? ? S1' F1 ]; subst.
      inversion S2 as [ | ? ? S2' F2 ]; subst.
      rewrite List.Forall_forall in F1, F2.
      assert (a = b) as ->.
      { assert (In a (b :: t2)) as Ha
            by (eapply Permutation_in; [ exact P | now left ]).
        assert (In b (a :: t1)) as Hb
            by (eapply Permutation_in;
                [ apply Permutation_sym, P | now left ]).
        destruct Ha as [ -> | Ha ]; [ reflexivity | ].
        destruct Hb as [ -> | Hb ]; [ reflexivity | ].
        exfalso. exact (Asym a b (F1 b Hb) (F2 a Ha)). }
      f_equal. apply IH; try assumption.
      eapply Permutation_cons_inv. exact P.
Qed.
End SortFacts.

(* ===================================================================== *)
(** * Sorting in the results table *)
(* ===================================================================== *)

Section TableSort.
Import KeywordTable.

Lemma comparefn_strings (st : State) (a b : KeywordEntry) :
  sortField st <> f_priorityScore ->
  comparefn st a b
  = match sortDirection st with
    | asc => signOf (String.compare (lowered (sortField st) a)
                                    (lowered (sortField st) b))
    | desc => - signOf (String.compare (lowered (sortField st) a)
                                       (lowered (sortField st) b))
    end.
Proof.
  intros N. unfold comparefn, lowered, String.ltb.
  rewrite (String.compare_antisym
             (JS.toLowerCase (String_of (field_of (sortField st) b)))).
  destruct (sortField st); try congruence; simpl;
    match goal with
    | |- context [String.compare ?x ?y] => destruct (String.compare x y)
    end; simpl; now destruct (sortDirection st).
Qed.

Lemma comparefn_flip (st : State) (a b : KeywordEntry) :
  comparefn (withDirection st desc) a b
  = - comparefn (withDirection st asc) a b.
Proof.
  unfold comparefn, withDirection. simpl.
  destruct (field_of (sortField st) a), (field_of (sortField st) b);
    try lia;
    repeat match goal with
           | |- context [String.ltb ?x ?y] => destruct (String.ltb x y)
           end; reflexivity.
Qed.

Lemma NoDup_map_filter {A B : Type} (f : A -> B) (p : A -> bool)
      (l : list A) :
  List.NoDup (List.map f l) -> List.NoDup (List.map f (List.filter p l)).
Proof.
  induction l as [ | x l IH ]; intros N; simpl.
  - constructor.
  - inversion N as [ | ? ? Hx N' ]; subst.
    destruct (p x); simpl; [ | now apply IH ].
    constructor; [ | now apply IH ].
    intros Hin. apply Hx. apply in_map_iff in Hin as (y & E & Hy).
    apply filter_In in Hy as [Hy _]. apply in_map_iff. eauto.
Qed.

Lemma NoDup_map_opp {A : Type} (f : A -> Z) (l : list A) :
  List.NoDup (List.map f l) -> List.NoDup (List.map (fun e => - f e) l).
Proof.
  induction l as [ | x l IH ]; intros N; simpl.
  - constructor.
  - inversion N as [ | ? ? Hx N' ]; subst.
    constructor; [ | now apply IH ].
    intros Hin. apply Hx. apply in_map_iff in Hin as (y & E & Hy).
    apply in_map_iff. exists y. split; [ lia | assumption ].
Qed.

Lemma sorted_weaken {A : Type} (R R' : A -> A -> Prop) (l : list A) :
  (forall a b, R a b -> R' a b) ->
  StronglySorted R l -> StronglySorted R' l.
Proof.
  intros W. induction 1 as [ | x l S IH F ]; constructor.
  - assumption.
  - eapply List.Forall_impl; [ | exact F ]. apply W.
Qed.

(** Sorted by score, a view with pairwise distinct scores reads the same
    descending as ascending backwards. *)
Lemma sortedData_desc_rev_asc (st : State) (data : list KeywordEntry) :
  sortField st = f_priorityScore ->
  List.NoDup (List.map priorityScore data) ->
  sortedData (withDirection st desc) data
  = rev (sortedData (withDirection st asc) data).
Proof.
  intros Hf N. unfold sortedData.
  change (filteredData (withDirection st desc) data)
    with (filteredData st data).
  change (filteredData (withDirection st asc) data)
    with (filteredData st data).
  set (l := filteredData st data).
  assert (List.NoDup (List.map priorityScore l)) as Nl
      by (apply NoDup_map_filter; exact N).
  rewrite (Array_sort_ext (comparefn (withDirection st desc))
             (fun a b => (fun e => - priorityScore e) a
                         - (fun e => - priorityScore e) b))
    by (intros; unfold comparefn; simpl; rewrite Hf; simpl; lia).
  rewrite (Array_sort_ext (comparefn (withDirection st asc))
             (fun a b => priorityScore a - priorityScore b))
    by (intros; unfold comparefn; simpl; rewrite Hf; reflexivity).
  apply (sorted_perm_unique
           (fun a b => priorityScore b < priorityScore a)).
  - intros a b H1 H2. lia.
  - eapply perm_trans; [ apply Permutation_sym, Array_sort_perm | ].
    eapply perm_trans; [ apply Array_sort_perm | apply Permutation_rev ].
  - apply sorted_weaken
      with (R := fun a b => - priorityScore a < - priorityScore b);
      [ intros; lia | ].
    apply (sorted_distinct_strict (fun e => - priorityScore e)).
    + eapply Permutation_NoDup;
        [ apply Permutation_map, Array_sort_perm | ].
      apply NoDup_map_opp. exact Nl.
    + apply (Array_sort_sorted (fun e => - priorityScore e)).
  - apply (sorted_rev (fun a b => priorityScore a < priorityScore b)).
    apply (sorted_distinct_strict priorityScore).
    + eapply Permutation_NoDup;
        [ apply Permutation_map, Array_sort_perm | exact Nl ].
    + apply (Array_sort_sorted priorityScore).
Qed.

(** C3. On the numeric field the comparator is the difference of the two
    scores; on every other field it is the order of the two values as
    lower-case strings; in both cases the descending comparator is the
    ascending one with its sign flipped.  Hence, for a dataset whose
    scores are pairwise distinct, the view sorted by score descending is
    the view sorted by score ascending read backwards. *)
Theorem comparefn_dispatch_and_reversal (st : State) :
  (forall a b, sortField st = f_priorityScore ->
     comparefn st a b
     = match sortDirection st with
       | asc => priorityScore a - priorityScore b
       | desc => priorityScore b - priorityScore a
       end) /\
  (forall a b, sortField st <> f_priorityScore ->
     comparefn (withDirection st asc) a b
     = signOf (String.compare (lowered (sortField st) a)
                              (lowered (sortField st) b))) /\
  (forall a b,
     comparefn (withDirection st desc) a b
     = - comparefn (withDirection st asc) a b) /\
  (forall data,
     sortField st = f_priorityScore ->
     List.NoDup (List.map priorityScore data) ->
     sortedData (withDirection st desc) data
     = rev (sortedData (withDirection st asc) data)).
Proof.
  split; [ | split; [ | split ] ].
  - intros a b Hf. unfold comparefn. now rewrite Hf.
  - intros a b Hf.
    now rewrite (comparefn_strings (withDirection st asc) a b Hf).
  - apply comparefn_flip.
  - apply sortedData_desc_rev_asc.
Qed.

Lemma comparefn_dispatch_and_reversal_witness :
  comparefn initial buyCoffee whatIsCoffee = 40 - 90 /\
  comparefn (withDirection byKeyword asc) bestCoffee buyCoffee = -1 /\
  sortedData (withDirection initial desc)
             [whatIsCoffee; buyCoffee; bestCoffee]
  = rev (sortedData (withDirection initial asc)
                    [whatIsCoffee; buyCoffee; bestCoffee]).
Proof.
  split; [ | split ].
  - apply (proj1 (comparefn_dispatch_and_reversal initial)
             buyCoffee whatIsCoffee).
    reflexivity.
  - apply (proj1 (proj2 (comparefn_dispatch_and_reversal byKeyword))
             bestCoffee buyCoffee).
    discriminate.
  - apply (proj2 (proj2 (proj2 (comparefn_dispatch_and_reversal initial)))).
    + reflexivity.
    + repeat constructor; simpl; intuition discriminate.
Defined.

(** The example of the specification: by score, descending. *)
Example sortedData_example :
  List.map keyword (sortedData initial [whatIsCoffee; buyCoffee])
  = ["buy coffee"; "what is coffee"].
Proof. reflexivity. Qed.
End TableSort.

(* ===================================================================== *)
(** * Counting by category *)
(* ===================================================================== *)

Section Counters.
Import App.

Lemma mem_In (k : string) (l : list string) : mem k l = true <-> In k l.
Proof.
  unfold mem. rewrite existsb_exists. split.
  - intros (x & Hx & E). apply String.eqb_eq in E. now subst.
  - intros H. exists k. split; [ assumption | apply String.eqb_refl ].
Qed.

Lemma own_None (o : JS.object) (k : string) :
  JS.own o k = None <-> ~ In k (keys o).
Proof.
  induction o as [ | [k' v] o IH ]; simpl.
  - tauto.
  - destruct (String.eqb_spec k' k) as [ -> | N ].
    + split; [ discriminate | tauto ].
    + rewrite IH. tauto.
Qed.

Lemma keys_replace_own (o : JS.object) (k : string) (v : JS.value) :
  keys (JS.replace_own o k v) = keys o.
Proof.
  induction o as [ | [k' v'] o IH ]; simpl.
  - reflexivity.
  - destruct (String.eqb k' k); simpl; [ reflexivity | now rewrite IH ].
Qed.

(** One step of counting creates the property when it is new, last in
    creation order, and creates nothing otherwise. *)
Lemma keys_count (o : JS.object) (k : string) :
  k <> "__proto__" ->
  keys (count o k) = if mem k (keys o) then keys o
                     else (keys o ++ [k])%list.
Proof.
  intros Np. unfold count, JS.assign.
  destruct (JS.own o k) as [v | ] eqn:E.
  - assert (In k (keys o)) as Hin.
    { destruct (mem k (keys o)) eqn:M; [ now apply mem_In | ].
      exfalso. assert (~ In k (keys o)) as H.
      { intros H. apply mem_In in H. congruence. }
      apply own_None in H. congruence. }
    apply mem_In in Hin. rewrite Hin. apply keys_replace_own.
  - apply own_None in E.
    destruct (mem k (keys o)) eqn:M.
    + apply mem_In in M. contradiction.
    + apply String.eqb_neq in Np. rewrite Np.
      unfold keys. rewrite List.map_app. reflexivity.
Qed.

Lemma filter_filter {A : Type} (p q : A -> bool) (l : list A) :
  List.filter p (List.filter q l) = List.filter (fun x => q x && p x) l.
Proof.
  induction l as [ | x l IH ]; simpl.
  - reflexivity.
  - destruct (q x); simpl; [ destruct (p x) | ]; now rewrite IH.
Qed.

Lemma keys_fold_count (l : list string) (o : JS.object) :
  ~ In "__proto__" l ->
  keys (fold_left count l o)
  = (keys o ++ List.filter (fun y => negb (mem y (keys o)))
                           (firstSeen l))%list.
Proof.
  revert o. induction l as [ | x t IH ]; intros o Np; simpl.
  - now rewrite List.app_nil_r.
  - assert (x <> "__proto__") as Nx by (intros ->; apply Np; now left).
    assert (~ In "__proto__" t) as Nt by (intros H; apply Np; now right).
    rewrite (IH _ Nt), (keys_count _ _ Nx).
    destruct (mem x (keys o)) eqn:M; simpl.
    + f_equal. rewrite filter_filter. apply List.filter_ext. intros y.
      destruct (String.eqb_spec y x) as [ -> | N ]; simpl.
      * now rewrite M.
      * reflexivity.
    + rewrite <- List.app_assoc. simpl. do 2 f_equal.
      rewrite filter_filter. apply List.filter_ext. intros y.
      unfold mem. rewrite existsb_app. simpl.
      rewrite orb_false_r, negb_orb. apply andb_comm.
Qed.

(** ** The sum of the counters *)

Lemma sumNumbers_snoc (l : list JS.value) (t n : Z) :
  sumNumbers l = Some t ->
  sumNumbers (l ++ [JS.VNum n]) = Some (t + n).
Proof.
  revert t. induction l as [ | [m | s] l IH ]; intros t; simpl.
  - intros [= <-]. f_equal. lia.
  - destruct (sumNumbers l) as [u | ]; [ | discriminate ].
    intros [= <-]. rewrite (IH u eq_refl). f_equal. lia.
  - discriminate.
Qed.

Lemma sumNumbers_perm (l l' : list JS.value) :
  Permutation l l' -> sumNumbers l = sumNumbers l'.
Proof.
  induction 1 as [ | v l l' P IH | v w l | l l' l'' P1 IH1 P2 IH2 ]; simpl.
  - reflexivity.
  - now rewrite IH.
  - destruct v, w; try reflexivity.
    destruct (sumNumbers l); [ f_equal; lia | reflexivity ].
  - congruence.
Qed.

Lemma own_is_number (o : JS.object) (k : string) (v : JS.value) (t : Z) :
  sumNumbers (List.map snd o) = Some t ->
  JS.own o k = Some v -> exists n, v = JS.VNum n.
Proof.
  revert t. induction o as [ | [k' v'] o IH ]; intros t; simpl.
  - discriminate.
  - destruct v' as [n' | s']; [ | discriminate ].
    destruct (sumNumbers (List.map snd o)) as [u | ]; [ | discriminate ].
    intros _. destruct (String.eqb k' k).
    + intros [= <-]. now exists n'.
    + now apply (IH u).
Qed.

Lemma sumNumbers_replace_own (o : JS.object) (k : string) (n t : Z) :
  JS.own o k = Some (JS.VNum n) ->
  sumNumbers (List.map snd o) = Some t ->
  sumNumbers (List.map snd (JS.replace_own o k (JS.VNum (n + 1))))
  = Some (t + 1).
Proof.
  revert t. induction o as [ | [k' v'] o IH ]; intros t; simpl.
  - discriminate.
  - destruct (String.eqb k' k).
    + intros [= ->]. simpl.
      destruct (sumNumbers (List.map snd o)); [ | discriminate ].
      intros [= <-]. f_equal. lia.
    + intros E. simpl. destruct v' as [n' | s']; [ | discriminate ].
      destruct (sumNumbers (List.map snd o)) as [u | ]; [ | discriminate ].
      intros [= <-]. rewrite (IH u E eq_refl). f_equal. lia.
Qed.

(** One step of counting under a name that [Object.prototype] does not
    have adds one to the sum of the counters. *)
Lemma sumNumbers_count (o : JS.object) (k : string) (t : Z) :
  JS.inherited k = false ->
  sumNumbers (List.map snd o) = Some t ->
  sumNumbers (List.map snd (count o k)) = Some (t + 1).
Proof.
  intros Hk Ho. unfold count, JS.assign, JS.incremented.
  destruct (JS.own o k) as [v | ] eqn:E.
  - destruct (own_is_number o k v t Ho E) as [n ->].
    now apply sumNumbers_replace_own.
  - rewrite Hk.
    assert (String.eqb k "__proto__" = false) as ->.
    { apply String.eqb_neq. intros ->. discriminate. }
    rewrite List.map_app. simpl.
    now apply sumNumbers_snoc.
Qed.

Lemma sumNumbers_fold_count (l : list string) (o : JS.object) (t : Z) :
  List.forallb (fun k => negb (JS.inherited k)) l = true ->
  sumNumbers (List.map snd o) = Some t ->
  sumNumbers (List.map snd (fold_left count l o))
  = Some (t + Z.of_nat (List.length l)).
Proof.
  revert o t. induction l as [ | k l IH ]; intros o t Hl Ho.
  - simpl. rewrite Ho. f_equal. lia.
  - cbn [List.forallb] in Hl. apply andb_true_iff in Hl as [Hk Hl].
    apply negb_true_iff in Hk.
    cbn [fold_left].
    rewrite (IH (count o k) (t + 1) Hl (sumNumbers_count o k t Hk Ho)).
    f_equal. cbn [List.length]. lia.
Qed.

(** ** The two counters of the tally *)

Lemma intentCounts_fold (l : list KeywordEntry) (t : Tally) :
  intentCounts (fold_left tally_step l t)
  = fold_left count (List.map searchIntent l) (intentCounts t).
Proof.
  revert t. induction l as [ | k l IH ]; intros t; simpl.
  - reflexivity.
  - now rewrite IH.
Qed.

Lemma typeCounts_fold (l : list KeywordEntry) (t : Tally) :
  typeCounts (fold_left tally_step l t)
  = fold_left count (List.map keywordType l) (typeCounts t).
Proof.
  revert t. induction l as [ | k l IH ]; intros t; simpl.
  - reflexivity.
  - now rewrite IH.
Qed.

(** ** [Object.entries] *)

Lemma filter_partition_perm {A : Type} (p : A -> bool) (l : list A) :
  Permutation (List.filter p l ++ List.filter (fun x => negb (p x)) l) l.
Proof.
  induction l as [ | x l IH ]; simpl.
  - apply perm_nil.
  - destruct (p x); simpl.
    + now apply perm_skip.
    + apply Permutation_sym. eapply perm_trans.
      * apply perm_skip, Permutation_sym, IH.
      * apply Permutation_middle.
Qed.

Lemma Object_entries_perm (o : JS.object) :
  Permutation (JS.Object_entries o) o.
Proof.
  unfold JS.Object_entries.
  eapply perm_trans; [ | apply filter_partition_perm ].
  apply Permutation_app_tail, Permutation_sym, Array_sort_perm.
Qed.

Lemma sumValues_distribution (o : JS.object) :
  sumValues (distribution o) = sumNumbers (List.map snd o).
Proof.
  unfold sumValues, distribution. rewrite List.map_map. simpl.
  apply sumNumbers_perm, Permutation_map, Object_entries_perm.
Qed.
End Counters.

(* ===================================================================== *)
(** * The statistics: sums and order of the distributions *)
(* ===================================================================== *)

Section Statistics.
Import App.

(** For a non-empty list whose categories are names [Object.prototype]
    does not have, the average is the mean rounded half up and the counts
    of either distribution add up to the number of keywords. *)
Lemma stats_sums_plainNames (keywords : list KeywordEntry)
      (s : GenerationStats) :
  stats keywords = Some s ->
  plainNames keywords = true ->
  rounds_half_up (meanScore keywords) (avgPriority s) /\
  sumValues (intentDistribution s) = Some (totalKeywords s) /\
  sumValues (typeDistribution s) = Some (totalKeywords s).
Proof.
  intros Hs Hp. split; [ now apply (stats_avgPriority keywords s Hs) | ].
  apply andb_true_iff in Hp as [Hi Ht].
  destruct keywords as [ | k l ]; [ discriminate | ].
  unfold stats in Hs. injection Hs as <-.
  cbn [intentDistribution typeDistribution totalKeywords].
  rewrite !sumValues_distribution. unfold tally.
  rewrite intentCounts_fold, typeCounts_fold.
  cbn [intentCounts typeCounts].
  rewrite (sumNumbers_fold_count _ [] 0 Hi eq_refl).
  rewrite (sumNumbers_fold_count _ [] 0 Ht eq_refl).
  rewrite !List.length_map. now split.
Qed.

(** C1. On the one-entry list whose intent is [__proto__] the aggregator
    reports one keyword and the average 50, and an intent distribution
    with no entry at all, whose counts add up to 0 and not to 1: the read
    of the counter finds [Object.prototype], and the write is swallowed by
    the setter of that name.  On a list with the keyword type
    [constructor] the counter of that type is a text, not a number, so
    the type distribution has no numeric sum. *)
Theorem stats_miscounts_inherited_names :
  stats [protoIntent]
  = Some {| totalKeywords := 1;
            avgPriority := 50;
            intentDistribution := [];
            typeDistribution :=
              [ {| name := "Question"; value := JS.VNum 1 |} ] |} /\
  sumValues [] = Some 0 /\
  (exists s,
     stats [buyCoffee; constructorType; constructorType] = Some s /\
     totalKeywords s = 3 /\
     sumValues (intentDistribution s) = Some 3 /\
     typeDistribution s
     = [ {| name := "Commercial"; value := JS.VNum 1 |};
         {| name := "constructor";
            value := JS.VStr "function Object() { [native code] }11" |} ] /\
     sumValues (typeDistribution s) = None).
Proof.
  split; [ reflexivity | ]. split; [ reflexivity | ].
  eexists. split; [ reflexivity | ]. repeat split.
Qed.

Lemma stats_sums_plainNames_example :
  exists s,
    stats [buyCoffee; whatIsCoffee] = Some s /\
    avgPriority s = 65 /\
    rounds_half_up (meanScore [buyCoffee; whatIsCoffee]) (avgPriority s) /\
    sumValues (intentDistribution s) = Some (totalKeywords s) /\
    sumValues (typeDistribution s) = Some (totalKeywords s).
Proof.
  eexists. split; [ reflexivity | ]. split; [ reflexivity | ].
  apply (stats_sums_plainNames [buyCoffee; whatIsCoffee]); reflexivity.
Qed.

(** ** Order *)

Lemma map_fst_filter {B : Type} (p : string -> bool)
      (o : list (string * B)) :
  List.map fst (List.filter (fun q => p (fst q)) o)
  = List.filter p (List.map fst o).
Proof.
  induction o as [ | [k v] o IH ]; simpl.
  - reflexivity.
  - destruct (p k); simpl; now rewrite IH.
Qed.

Lemma map_sort_insert {A B : Type} (g : A -> B) (c : B -> B -> Z)
      (x : A) (l : list A) :
  List.map g (JS.sort_insert (fun p q => c (g p) (g q)) x l)
  = JS.sort_insert c (g x) (List.map g l).
Proof.
  induction l as [ | y l IH ]; simpl.
  - reflexivity.
  - destruct (c (g x) (g y) <=? 0); simpl; [ reflexivity | now rewrite IH ].
Qed.

Lemma map_Array_sort {A B : Type} (g : A -> B) (c : B -> B -> Z)
      (l : list A) :
  List.map g (JS.Array_sort (fun p q => c (g p) (g q)) l)
  = JS.Array_sort c (List.map g l).
Proof.
  induction l as [ | x l IH ]; simpl.
  - reflexivity.
  - now rewrite map_sort_insert, IH.
Qed.

Lemma names_distribution (o : JS.object) :
  List.map name (distribution o) = indicesFirst (keys o).
Proof.
  unfold distribution. rewrite List.map_map. cbn [name].
  change (List.map (fun x : string * JS.value => fst x)
                   (JS.Object_entries o))
    with (List.map fst (JS.Object_entries o)).
  unfold JS.Object_entries, indicesFirst, keys.
  rewrite List.map_app.
  change (fun p q : string * JS.value =>
            JS.index_of (fst p) - JS.index_of (fst q))
    with (fun p q : string * JS.value => byIndex (fst p) (fst q)).
  rewrite (map_Array_sort fst byIndex).
  now rewrite (map_fst_filter JS.is_array_index),
              (map_fst_filter (fun k => negb (JS.is_array_index k))).
Qed.

Lemma filter_all {A : Type} (p : A -> bool) (l : list A) :
  List.forallb p l = true -> List.filter p l = l.
Proof.
  induction l as [ | x l IH ]; simpl.
  - reflexivity.
  - intros H. apply andb_true_iff in H as [Hx Hl].
    rewrite Hx. now rewrite IH.
Qed.

Lemma filter_none {A : Type} (p : A -> bool) (l : list A) :
  List.forallb (fun x => negb (p x)) l = true -> List.filter p l = [].
Proof.
  induction l as [ | x l IH ]; simpl.
  - reflexivity.
  - intros H. apply andb_true_iff in H as [Hx Hl].
    apply negb_true_iff in Hx. rewrite Hx. now apply IH.
Qed.

Lemma keys_counted (l : list string) :
  ~ In "__proto__" l -> keys (fold_left count l []) = firstSeen l.
Proof.
  intros H. rewrite (keys_fold_count l [] H). simpl.
  apply filter_all. now induction (firstSeen l).
Qed.

(** C8, as the code has it.  When no category is named [__proto__], each
    distribution lists its categories with the names that are array
    indices first, in ascending numeric order, followed by the other
    names in the order they are first seen in the input; so a list none of
    whose categories is an array index is listed in first-seen order. *)
Theorem distribution_order (keywords : list KeywordEntry)
        (s : GenerationStats) :
  stats keywords = Some s ->
  ~ In "__proto__" (List.map searchIntent keywords) ->
  ~ In "__proto__" (List.map keywordType keywords) ->
  let intents := firstSeen (List.map searchIntent keywords) in
  let types := firstSeen (List.map keywordType keywords) in
  List.map name (intentDistribution s) = indicesFirst intents /\
  List.map name (typeDistribution s) = indicesFirst types /\
  StronglySorted (fun a b => JS.index_of a <= JS.index_of b)
    (JS.Array_sort byIndex (List.filter JS.is_array_index intents)) /\
  StronglySorted (fun a b => JS.index_of a <= JS.index_of b)
    (JS.Array_sort byIndex (List.filter JS.is_array_index types)) /\
  (List.forallb (fun k => negb (JS.is_array_index k)) intents = true ->
     List.map name (intentDistribution s) = intents) /\
  (List.forallb (fun k => negb (JS.is_array_index k)) types = true ->
     List.map name (typeDistribution s) = types).
Proof.
  intros Hs Hi Ht intents types.
  destruct keywords as [ | k l ]; [ discriminate | ].
  unfold stats in Hs. injection Hs as <-.
  cbn [intentDistribution typeDistribution].
  rewrite !names_distribution. unfold tally.
  rewrite intentCounts_fold, typeCounts_fold.
  cbn [intentCounts typeCounts].
  rewrite (keys_counted _ Hi), (keys_counted _ Ht).
  fold intents types.
  split; [ reflexivity | ]. split; [ reflexivity | ].
  split; [ apply (Array_sort_sorted JS.index_of) | ].
  split; [ apply (Array_sort_sorted JS.index_of) | ].
  split; intros H; unfold indicesFirst;
    rewrite (filter_none _ _ H), (filter_all _ _ H); reflexivity.
Qed.

Lemma distribution_order_witness :
  List.map name
    (intentDistribution
       (mkGenerationStats 3 68
          [ mkDistributionEntry "Transactional" (JS.VNum 1);
            mkDistributionEntry "Informational" (JS.VNum 1);
            mkDistributionEntry "Commercial" (JS.VNum 1) ]
          [ mkDistributionEntry "Commercial" (JS.VNum 2);
            mkDistributionEntry "Question" (JS.VNum 1) ]))
  = firstSeen (List.map searchIntent [buyCoffee; whatIsCoffee; bestCoffee]).
Proof.
  apply (proj1 (proj2 (proj2 (proj2 (proj2
           (distribution_order [buyCoffee; whatIsCoffee; bestCoffee] _
              eq_refl
              ltac:(simpl; intuition discriminate)
              ltac:(simpl; intuition discriminate))))))).
  reflexivity.
Defined.

(** C8 as stated fails on this input: the intent [10] is seen first and
    listed last. *)
Lemma distribution_order_not_first_seen :
  exists s,
    stats [intentTen; intentNine] = Some s /\
    firstSeen (List.map searchIntent [intentTen; intentNine])
    = ["10"; "9"] /\
    List.map name (intentDistribution s) = ["9"; "10"] /\
    List.map name (intentDistribution s)
    <> firstSeen (List.map searchIntent [intentTen; intentNine]).
Proof.
  eexists. split; [ reflexivity | ]. repeat split. discriminate.
Qed.
End Statistics.

(* ===================================================================== *)
(** * Rendering: the summary cards sort the shared arrays *)
(* ===================================================================== *)

Section Rendering.
Import App.

Lemma sumNumbers_numeric (d : list DistributionEntry) (t : Z) :
  sumValues d = Some t -> Forall numeric d.
Proof.
  unfold sumValues. revert t.
  induction d as [ | [nm [n | s]] d IH ]; intros t; simpl.
  - constructor.
  - destruct (sumNumbers (List.map value d)) as [u | ] eqn:E;
      [ | discriminate ].
    intros _. constructor; [ now exists n | now apply (IH u) ].
  - discriminate.
Qed.

Lemma sort_byCountDesc_numeric (d : list DistributionEntry) :
  Forall numeric d ->
  JS.Array_sort byCountDesc d
  = JS.Array_sort (fun a b => (fun e => - countOf e) a
                              - (fun e => - countOf e) b) d.
Proof.
  intros F. apply Array_sort_ext. intros a b Ha Hb.
  rewrite List.Forall_forall in F.
  destruct (F a Ha) as [x Hx], (F b Hb) as [y Hy].
  unfold byCountDesc, countOf. rewrite Hx, Hy. lia.
Qed.

(** Sorting numeric entries with the cards' comparator puts them in
    descending order of count. *)
Lemma sort_byCountDesc_descending (d : list DistributionEntry) :
  Forall numeric d -> descending (JS.Array_sort byCountDesc d).
Proof.
  intros F. rewrite (sort_byCountDesc_numeric d F).
  apply sorted_weaken
    with (R := fun a b => - countOf a <= - countOf b);
    [ intros; lia | ].
  apply (Array_sort_sorted (fun e => - countOf e)).
Qed.

(** The head of a descending array carries a largest count. *)
Lemma descending_head_max (d d' : list DistributionEntry)
      (e : DistributionEntry) :
  Permutation d (e :: d') -> descending (e :: d') ->
  In e d /\ forall e', In e' d -> countOf e' <= countOf e.
Proof.
  intros P S. split.
  - eapply Permutation_in; [ apply Permutation_sym, P | now left ].
  - intros e' H. eapply Permutation_in in H; [ | exact P ].
    inversion S as [ | ? ? _ F ]; subst.
    destruct H as [ <- | H ]; [ lia | ].
    rewrite List.Forall_forall in F. now apply F.
Qed.

(** What the results section does to the store, and what the cards and
    the [Dashboard] get. *)
Lemma render_results_store (h : store) (o : StatsObject)
      (di dt : list DistributionEntry) :
  o_intentDistribution o <> o_typeDistribution o ->
  h !! o_intentDistribution o = Some di ->
  h !! o_typeDistribution o = Some dt ->
  render_results o h
  = (({| topIntent := firstName (JS.Array_sort byCountDesc di);
         dominantType := firstName (JS.Array_sort byCountDesc dt) |}, o),
     <[o_typeDistribution o := JS.Array_sort byCountDesc dt]>
       (<[o_intentDistribution o := JS.Array_sort byCountDesc di]> h)).
Proof.
  intros N Hi Ht.
  unfold render_results, sort_in_place, bind, read, write, ret.
  rewrite Hi. cbn [from_option id].
  rewrite lookup_insert_ne by exact N.
  rewrite Ht. reflexivity.
Qed.

Lemma view_store (h : store) (o : StatsObject)
      (di dt : list DistributionEntry) :
  o_intentDistribution o <> o_typeDistribution o ->
  view o (<[o_typeDistribution o := dt]>
            (<[o_intentDistribution o := di]> h))
  = ({| totalKeywords := o_totalKeywords o;
        avgPriority := o_avgPriority o;
        intentDistribution := di;
        typeDistribution := dt |},
     <[o_typeDistribution o := dt]>
       (<[o_intentDistribution o := di]> h)).
Proof.
  intros N. unfold view, bind, read, ret.
  rewrite lookup_insert_eq.
  rewrite lookup_insert_ne by (intros E; apply N; now symmetry).
  now rewrite lookup_insert_eq.
Qed.

(** The object [useMemo] returns holds the aggregator's two arrays at two
    different places of the store. *)
Lemma memo_stats_store (keywords : list KeywordEntry)
      (s : GenerationStats) (h : store) :
  stats keywords = Some s ->
  exists o,
    memo_stats keywords h
    = (Some o, <[o_typeDistribution o := typeDistribution s]>
                 (<[o_intentDistribution o := intentDistribution s]> h)) /\
    o_intentDistribution o <> o_typeDistribution o /\
    o_totalKeywords o = totalKeywords s /\
    o_avgPriority o = avgPriority s.
Proof.
  intros Hs. unfold memo_stats. rewrite Hs.
  unfold bind, alloc, ret.
  exists {| o_totalKeywords := totalKeywords s;
            o_avgPriority := avgPriority s;
            o_intentDistribution := fresh (dom h);
            o_typeDistribution :=
              fresh (dom (<[fresh (dom h) := intentDistribution s]> h)) |}.
  split; [ reflexivity | ].
  cbn [o_intentDistribution o_typeDistribution
       o_totalKeywords o_avgPriority].
  split; [ | now split ].
  intros E.
  pose proof (is_fresh (dom (<[fresh (dom h) := intentDistribution s]> h)))
    as Hf.
  rewrite <- E in Hf. apply Hf.
  rewrite dom_insert_L. set_solver.
Qed.
End Rendering.

Section RenderingClaim.
Import App.

(** An array already in descending order is left as it is. *)
Lemma sort_descending_fixed (d : list DistributionEntry) :
  Forall numeric d -> descending d -> JS.Array_sort byCountDesc d = d.
Proof.
  intros F S. rewrite (sort_byCountDesc_numeric d F). clear F.
  induction S as [ | x l S IH F ]; simpl.
  - reflexivity.
  - rewrite IH. destruct l as [ | y l' ]; simpl.
    + reflexivity.
    + inversion F as [ | ? ? Hy _ ]; subst.
      destruct (Z.leb_spec (- countOf x - - countOf y) 0);
        [ reflexivity | lia ].
Qed.

Lemma plainNames_numeric (keywords : list KeywordEntry)
      (s : GenerationStats) :
  stats keywords = Some s -> plainNames keywords = true ->
  Forall numeric (intentDistribution s) /\
  Forall numeric (typeDistribution s).
Proof.
  intros Hs Hp.
  destruct (stats_sums_plainNames keywords s Hs Hp) as (_ & Hi & Ht).
  split; eapply sumNumbers_numeric; eassumption.
Qed.

(** C10. Take the statistics of a keyword list, with numeric counts, as
    [useMemo] holds them.  Rendering the results section sorts the two
    arrays of that object where they are, by descending count; the
    [Dashboard] is handed the same object and reads the sorted arrays.
    Each of them is a rearrangement of the aggregator's array in
    descending order of count, and is the aggregator's order only if that
    was descending already.  The Top Intent and Dominant Type cards show
    [name || 'N/A'] of the first entry, an entry of largest count. *)
Theorem render_sorts_shared_arrays (keywords : list KeywordEntry)
        (s : GenerationStats) (h : store) :
  stats keywords = Some s ->
  Forall numeric (intentDistribution s) ->
  Forall numeric (typeDistribution s) ->
  exists o h1 cards h2 seen,
    memo_stats keywords h = (Some o, h1) /\
    render_results o h1 = ((cards, o), h2) /\
    (forall st, showsResults st (Some o) = true ->
                render st (Some o) h1 = (Some (cards, o), h2)) /\
    Dashboard_data o h2 = (seen, h2) /\
    intentDistribution seen
    = JS.Array_sort byCountDesc (intentDistribution s) /\
    typeDistribution seen
    = JS.Array_sort byCountDesc (typeDistribution s) /\
    Permutation (intentDistribution s) (intentDistribution seen) /\
    Permutation (typeDistribution s) (typeDistribution seen) /\
    descending (intentDistribution seen) /\
    descending (typeDistribution seen) /\
    (intentDistribution seen = intentDistribution s
     <-> descending (intentDistribution s)) /\
    (typeDistribution seen = typeDistribution s
     <-> descending (typeDistribution s)) /\
    topIntent cards = firstName (intentDistribution seen) /\
    dominantType cards = firstName (typeDistribution seen) /\
    (forall e rest, intentDistribution seen = e :: rest ->
       In e (intentDistribution s) /\
       (forall e', In e' (intentDistribution s) ->
                   countOf e' <= countOf e) /\
       topIntent cards = if JS.truthy (name e) then name e else "N/A") /\
    (forall e rest, typeDistribution seen = e :: rest ->
       In e (typeDistribution s) /\
       (forall e', In e' (typeDistribution s) ->
                   countOf e' <= countOf e) /\
       dominantType cards = if JS.truthy (name e) then name e else "N/A").
Proof.
  intros Hs Fi Ft.
  destruct (memo_stats_store keywords s h Hs) as (o & Hm & N & _ & _).
  pose proof (render_results_store
                (<[o_typeDistribution o := typeDistribution s]>
                   (<[o_intentDistribution o := intentDistribution s]> h))
                o (intentDistribution s) (typeDistribution s) N) as Hr.
  rewrite lookup_insert_ne in Hr by (intros E; apply N; now symmetry).
  rewrite !lookup_insert_eq in Hr.
  specialize (Hr eq_refl eq_refl).
  set (di := JS.Array_sort byCountDesc (intentDistribution s)) in *.
  set (dt := JS.Array_sort byCountDesc (typeDistribution s)) in *.
  pose proof (view_store
                (<[o_typeDistribution o := typeDistribution s]>
                   (<[o_intentDistribution o := intentDistribution s]> h))
                o di dt N) as Hv.
  exists o. eexists. eexists. eexists. eexists.
  split; [ exact Hm | ].
  split; [ exact Hr | ].
  split.
  { intros st Hg. unfold render. rewrite Hg. unfold bind.
    rewrite Hr. reflexivity. }
  split; [ exact Hv | ].
  cbn [intentDistribution typeDistribution topIntent dominantType].
  assert (Permutation (intentDistribution s) di) as Pi
      by apply Array_sort_perm.
  assert (Permutation (typeDistribution s) dt) as Pt
      by apply Array_sort_perm.
  assert (descending di) as Si by now apply sort_byCountDesc_descending.
  assert (descending dt) as St by now apply sort_byCountDesc_descending.
  repeat (split; [ first [ reflexivity | assumption ] | ]).
  split.
  { split; intros H.
    - rewrite <- H. exact Si.
    - now apply sort_descending_fixed. }
  split.
  { split; intros H.
    - rewrite <- H. exact St.
    - now apply sort_descending_fixed. }
  split; [ reflexivity | ]. split; [ reflexivity | ].
  split.
  - intros e rest E. rewrite E in Pi, Si.
    destruct (descending_head_max _ _ _ Pi Si) as [Hin Hmax].
    split; [ exact Hin | split; [ exact Hmax | now rewrite E ] ].
  - intros e rest E. rewrite E in Pt, St.
    destruct (descending_head_max _ _ _ Pt St) as [Hin Hmax].
    split; [ exact Hin | split; [ exact Hmax | now rewrite E ] ].
Qed.
End RenderingClaim.

Section RenderingExample.
Import App.

Lemma threeEntries_numeric :
  Forall numeric (intentDistribution threeEntriesStats) /\
  Forall numeric (typeDistribution threeEntriesStats).
Proof.
  split; repeat constructor; eexists; reflexivity.
Defined.

(** The aggregator lists [Transactional] first; after rendering, the
    [Dashboard] finds [Commercial] first, and the card names it. *)
Lemma render_sorts_shared_arrays_witness :
  stats threeEntries = Some threeEntriesStats /\
  List.map name (intentDistribution threeEntriesStats)
  = ["Transactional"; "Commercial"] /\
  exists o h1 cards h2 seen,
    memo_stats threeEntries ∅ = (Some o, h1) /\
    render_results o h1 = ((cards, o), h2) /\
    Dashboard_data o h2 = (seen, h2) /\
    List.map name (intentDistribution seen)
    = ["Commercial"; "Transactional"] /\
    List.map name (typeDistribution seen) = ["Commercial"; "Long Tail"] /\
    topIntent cards = "Commercial" /\
    dominantType cards = "Commercial".
Proof.
  split; [ reflexivity | ]. split; [ reflexivity | ].
  destruct (render_sorts_shared_arrays
              threeEntries threeEntriesStats ∅ eq_refl
              (proj1 threeEntries_numeric) (proj2 threeEntries_numeric))
    as (o & h1 & cards & h2 & seen & Hm & Hr & _ & Hd & Ei & Et & _ & _
        & _ & _ & _ & _ & Ci & Ct & _ & _).
  exists o, h1, cards, h2, seen.
  split; [ exact Hm | ]. split; [ exact Hr | ]. split; [ exact Hd | ].
  rewrite Ci, Ct, Ei, Et. repeat split.
Defined.
End RenderingExample.

(* ===================================================================== *)
(** * Sorting with a consistent comparator *)
(* ===================================================================== *)

Section ConsistentSort.
Context {A : Type} (cmp : A -> A -> Z).

(** The comparator is consistent: swapping the arguments flips the sign,
    and "not after" is transitive. *)
Hypothesis cmp_sgn : forall a b, Z.sgn (cmp b a) = - Z.sgn (cmp a b).
Hypothesis cmp_trans :
  forall a b c, cmp a b <= 0 -> cmp b c <= 0 -> cmp a c <= 0.

Lemma cmp_after (a b : A) : 0 < cmp a b -> cmp b a <= 0.
Proof. intros H. pose proof (cmp_sgn a b). lia. Qed.

Lemma consistent_insert_sorted (x : A) (l : list A) :
  StronglySorted (fun a b => cmp a b <= 0) l ->
  StronglySorted (fun a b => cmp a b <= 0) (JS.sort_insert cmp x l).
Proof.
  induction l as [ | y l IH ]; intros S; simpl.
  - repeat constructor.
  - inversion S as [ | ? ? S' F ]; subst.
    destruct (Z.leb_spec (cmp x y) 0) as [L | G].
    + constructor; [ assumption | ].
      constructor; [ assumption | ].
      eapply List.Forall_impl; [ | exact F ].
      intros z Hz. now apply (cmp_trans x y z).
    + constructor; [ now apply IH | ].
      apply List.Forall_forall. intros z Hz.
      eapply Permutation_in in Hz;
        [ | apply Permutation_sym, sort_insert_perm ].
      destruct Hz as [ <- | Hz ]; [ now apply cmp_after | ].
      rewrite List.Forall_forall in F. now apply F.
Qed.

(** The sorted array is in order: no element is after a later one. *)
Lemma consistent_sort_sorted (l : list A) :
  StronglySorted (fun a b => cmp a b <= 0) (JS.Array_sort cmp l).
Proof.
  induction l as [ | x l IH ]; simpl.
  - constructor.
  - now apply consistent_insert_sorted.
Qed.

Lemma insert_before_all (x : A) (l : list A) :
  Forall (fun z => cmp x z <= 0) l -> JS.sort_insert cmp x l = x :: l.
Proof.
  destruct l as [ | y l ]; intros F; simpl.
  - reflexivity.
  - inversion F as [ | ? ? Hy _ ]; subst.
    destruct (Z.leb_spec (cmp x y) 0); [ reflexivity | lia ].
Qed.

(** An array that is in order already is returned as it is. *)
Lemma consistent_sort_fixed (l : list A) :
  StronglySorted (fun a b => cmp a b <= 0) l -> JS.Array_sort cmp l = l.
Proof.
  induction 1 as [ | x l S IH F ]; simpl.
  - reflexivity.
  - rewrite IH. now apply insert_before_all.
Qed.

Lemma filter_sort_insert (p : A -> bool) (x : A) (l : list A) :
  StronglySorted (fun a b => cmp a b <= 0) l ->
  List.filter p (JS.sort_insert cmp x l)
  = if p x then JS.sort_insert cmp x (List.filter p l)
    else List.filter p l.
Proof.
  induction l as [ | y l IH ]; intros S.
  - simpl. now destruct (p x).
  - inversion S as [ | ? ? S' F ]; subst.
    cbn [JS.sort_insert].
    destruct (Z.leb_spec (cmp x y) 0) as [L | G].
    + transitivity (if p x then x :: List.filter p (y :: l)
                    else List.filter p (y :: l)).
      { simpl. now destruct (p x). }
      destruct (p x); [ | reflexivity ].
      symmetry. apply insert_before_all.
      assert (Forall (fun z => cmp x z <= 0) (y :: l)) as Fx.
      { constructor; [ assumption | ].
        eapply List.Forall_impl; [ | exact F ].
        intros z Hz. now apply (cmp_trans x y z). }
      apply List.Forall_forall. intros z Hz.
      apply filter_In in Hz as [Hz _].
      rewrite List.Forall_forall in Fx. now apply Fx.
    + cbn [List.filter]. rewrite (IH S').
      destruct (p y), (p x); try reflexivity.
      cbn [JS.sort_insert].
      destruct (Z.leb_spec (cmp x y) 0); [ lia | reflexivity ].
Qed.

(** Filtering the sorted array is sorting the filtered one. *)
Lemma filter_Array_sort (p : A -> bool) (l : list A) :
  List.filter p (JS.Array_sort cmp l)
  = JS.Array_sort cmp (List.filter p l).
Proof.
  induction l as [ | x l IH ]; simpl.
  - reflexivity.
  - rewrite filter_sort_insert by apply consistent_sort_sorted.
    rewrite IH. now destruct (p x).
Qed.

(** Elements the comparator does not tell apart from [x] stay in the order
    they had. *)
Lemma sort_keeps_ties (x : A) (l : list A) :
  List.filter (fun y => cmp x y =? 0) (JS.Array_sort cmp l)
  = List.filter (fun y => cmp x y =? 0) l.
Proof.
  rewrite filter_Array_sort. apply consistent_sort_fixed.
  assert (forall a b,
            In a (List.filter (fun y => cmp x y =? 0) l) ->
            In b (List.filter (fun y => cmp x y =? 0) l) ->
            cmp a b <= 0) as T.
  { intros a b Ha Hb.
    apply filter_In in Ha as [_ Ha]. apply filter_In in Hb as [_ Hb].
    apply Z.eqb_eq in Ha, Hb.
    apply (cmp_trans a x b); [ | lia ].
    pose proof (cmp_sgn x a). rewrite Ha in H. simpl in H. lia. }
  induction (List.filter (fun y => cmp x y =? 0) l) as [ | a m IH ].
  - constructor.
  - constructor.
    + apply IH. intros; apply T; now right.
    + apply List.Forall_forall. intros b Hb.
      apply T; [ now left | now right ].
Qed.
End ConsistentSort.

(* ===================================================================== *)
(** * The sorted view of the table *)
(* ===================================================================== *)

Section TableOrder.
Import KeywordTable.

(** "Not after" in code-unit order is transitive. *)
Lemma compare_not_Gt_trans (a b c : string) :
  String.compare a b <> Gt -> String.compare b c <> Gt ->
  String.compare a c <> Gt.
Proof.
  intros Hab Hbc.
  destruct (String.compare a b) eqn:Eab; [ | | congruence ].
  - apply String.compare_eq_iff in Eab. now subst.
  - destruct (String.compare b c) eqn:Ebc; [ | | congruence ].
    + apply String.compare_eq_iff in Ebc. subst. now rewrite Eab.
    + apply String_as_OT.cmp_lt in Eab, Ebc.
      pose proof (String_as_OT.lt_trans _ _ _ Eab Ebc) as H.
      apply String_as_OT.cmp_lt in H. unfold String_as_OT.cmp in H.
      now rewrite H.
Qed.

Lemma comparefn_sgn (st : State) (a b : KeywordEntry) :
  Z.sgn (comparefn st b a) = - Z.sgn (comparefn st a b).
Proof.
  destruct (SortField_eqb (sortField st) f_priorityScore) eqn:E.
  - apply SortField_eqb_eq in E. unfold comparefn. rewrite E. simpl.
    destruct (sortDirection st); lia.
  - assert (sortField st <> f_priorityScore) as N.
    { intros H. apply SortField_eqb_eq in H. congruence. }
    rewrite !(comparefn_strings st) by exact N.
    rewrite (String.compare_antisym (lowered (sortField st) b)).
    destruct (String.compare (lowered (sortField st) a)
                             (lowered (sortField st) b));
      now destruct (sortDirection st).
Qed.

Lemma signOf_nonpos (c : comparison) : signOf c <= 0 <-> c <> Gt.
Proof. destruct c; simpl; split; intros; try congruence; lia. Qed.

Lemma opp_signOf_nonpos (a b : string) :
  - signOf (String.compare a b) <= 0 <-> String.compare b a <> Gt.
Proof.
  rewrite (String.compare_antisym b a).
  destruct (String.compare a b); simpl; split; intros; try congruence; lia.
Qed.

Lemma comparefn_trans (st : State) (a b c : KeywordEntry) :
  comparefn st a b <= 0 -> comparefn st b c <= 0 -> comparefn st a c <= 0.
Proof.
  destruct (SortField_eqb (sortField st) f_priorityScore) eqn:E.
  - apply SortField_eqb_eq in E. unfold comparefn. rewrite E. simpl.
    destruct (sortDirection st); lia.
  - assert (sortField st <> f_priorityScore) as N.
    { intros H. apply SortField_eqb_eq in H. congruence. }
    rewrite !(comparefn_strings st) by exact N.
    destruct (sortDirection st).
    + rewrite !signOf_nonpos. apply compare_not_Gt_trans.
    + rewrite !opp_signOf_nonpos. intros H1 H2.
      now apply (compare_not_Gt_trans _ _ _ H2 H1).
Qed.

(** X1. The view is a rearrangement of the entries that pass the filter:
    none is lost, none is repeated, nothing else gets in; so it is never
    longer than the data, and the footer shows the number of entries that
    pass the filter. *)
Theorem sortedData_rearranges_filtered (st : State)
        (data : list KeywordEntry) :
  Permutation (filteredData st data) (sortedData st data) /\
  (forall e, In e (sortedData st data) <-> In e data /\ kept st e) /\
  (List.length (sortedData st data) <= List.length data)%nat /\
  TableView.footer st data
  = "Showing " ++
    JS.Number_toString (Z.of_nat (List.length (filteredData st data))) ++
    " keywords".
Proof.
  assert (Permutation (filteredData st data) (sortedData st data)) as P
      by apply Array_sort_perm.
  split; [ exact P | ]. split; [ | split ].
  - intros e.
    assert (In e (filteredData st data) <-> In e data /\ kept st e) as F
        by (unfold filteredData; now rewrite filter_In, keep_iff).
    rewrite <- F.
    split; apply Permutation_in; [ now apply Permutation_sym | exact P ].
  - rewrite <- (Permutation_length P). unfold filteredData.
    apply List.filter_length_le.
  - unfold TableView.footer. now rewrite <- (Permutation_length P).
Qed.
End TableOrder.

Section TableOrderFacts.
Import KeywordTable.

Lemma sortedData_sorted (st : State) (data : list KeywordEntry) :
  StronglySorted (fun a b => comparefn st a b <= 0) (sortedData st data).
Proof.
  apply consistent_sort_sorted;
    [ apply comparefn_sgn | apply comparefn_trans ].
Qed.

Lemma sortedData_ties (st : State) (data : list KeywordEntry)
      (x : KeywordEntry) :
  List.filter (fun y => comparefn st x y =? 0) (sortedData st data)
  = List.filter (fun y => comparefn st x y =? 0) (filteredData st data).
Proof.
  apply sort_keeps_ties; [ apply comparefn_sgn | apply comparefn_trans ].
Qed.

Lemma tie_on_score (st : State) (score : Z) (y : KeywordEntry) :
  sortField st = f_priorityScore ->
  (comparefn st {| keyword := ""; keywordType := ""; searchIntent := "";
                   priorityScore := score; importance := "" |} y =? 0)
  = (priorityScore y =? score).
Proof.
  intros Hf. unfold comparefn. rewrite Hf. simpl.
  destruct (sortDirection st);
    destruct (Z.eqb_spec (priorityScore y) score);
    (apply Z.eqb_eq || apply Z.eqb_neq); lia.
Qed.

Lemma sortedData_ties_score (st : State) (data : list KeywordEntry)
      (score : Z) :
  sortField st = f_priorityScore ->
  List.filter (fun y => priorityScore y =? score) (sortedData st data)
  = List.filter (fun y => priorityScore y =? score) (filteredData st data).
Proof.
  intros Hf.
  rewrite <- (List.filter_ext _ _ (fun y => tie_on_score st score y Hf)
                              (sortedData st data)).
  rewrite <- (List.filter_ext _ _ (fun y => tie_on_score st score y Hf)
                              (filteredData st data)).
  apply sortedData_ties.
Qed.

(** X2. Whatever the sort field and direction, the view is in the order of
    the comparator: no row is placed after a later row.  On the score
    column that is non-decreasing scores when ascending and non-increasing
    scores when descending; on a text column, ascending, no row's
    lower-cased text is greater than a later row's. *)
Theorem sortedData_in_order (st : State) (data : list KeywordEntry) :
  StronglySorted (fun a b => comparefn st a b <= 0) (sortedData st data) /\
  (sortField st = f_priorityScore -> sortDirection st = asc ->
     StronglySorted (fun a b => priorityScore a <= priorityScore b)
                    (sortedData st data)) /\
  (sortField st = f_priorityScore -> sortDirection st = desc ->
     StronglySorted (fun a b => priorityScore b <= priorityScore a)
                    (sortedData st data)) /\
  (sortField st <> f_priorityScore -> sortDirection st = asc ->
     StronglySorted
       (fun a b => String.compare (lowered (sortField st) a)
                                  (lowered (sortField st) b) <> Gt)
       (sortedData st data)).
Proof.
  pose proof (sortedData_sorted st data) as S.
  split; [ exact S | ].
  split; [ | split ]; intros Hf Hd;
    (eapply sorted_weaken; [ | exact S ]); intros a b; cbv beta.
  - unfold comparefn. rewrite Hf, Hd. simpl. lia.
  - unfold comparefn. rewrite Hf, Hd. simpl. lia.
  - rewrite (comparefn_strings st a b Hf), Hd. apply signOf_nonpos.
Qed.

Lemma sortedData_in_order_witness :
  StronglySorted (fun a b => priorityScore b <= priorityScore a)
                 (sortedData initial [whatIsCoffee; buyCoffee; bestCoffee]) /\
  StronglySorted
    (fun a b => String.compare (lowered f_keyword a) (lowered f_keyword b)
                <> Gt)
    (sortedData (withDirection byKeyword asc)
                [whatIsCoffee; buyCoffee; bestCoffee]).
Proof.
  split.
  - apply (proj1 (proj2 (proj2 (sortedData_in_order
              initial [whatIsCoffee; buyCoffee; bestCoffee]))));
      reflexivity.
  - apply (proj2 (proj2 (proj2 (sortedData_in_order
              (withDirection byKeyword asc)
              [whatIsCoffee; buyCoffee; bestCoffee]))));
      [ discriminate | reflexivity ].
Defined.

(** X3. The sort is stable on the table: the rows the comparator does not
    tell apart from a given entry are, in the view, in the order the data
    had them.  On the score column: the rows of any one score keep their
    data order, in either direction. *)
Theorem sortedData_keeps_ties (st : State) (data : list KeywordEntry) :
  (forall x,
     List.filter (fun y => comparefn st x y =? 0) (sortedData st data)
     = List.filter (fun y => comparefn st x y =? 0) (filteredData st data)) /\
  (sortField st = f_priorityScore ->
   forall score,
     List.filter (fun y => priorityScore y =? score) (sortedData st data)
     = List.filter (fun y => priorityScore y =? score)
                   (filteredData st data)).
Proof.
  split; [ apply sortedData_ties | ].
  intros Hf score. now apply sortedData_ties_score.
Qed.

Lemma sortedData_keeps_ties_witness :
  List.filter (fun y => priorityScore y =? 40)
              (sortedData initial [whatIsCoffee; buyCoffee; coldBrew])
  = List.filter (fun y => priorityScore y =? 40)
                (filteredData initial [whatIsCoffee; buyCoffee; coldBrew]).
Proof.
  apply (proj2 (sortedData_keeps_ties
                  initial [whatIsCoffee; buyCoffee; coldBrew])).
  reflexivity.
Defined.

(** X4. Sorting and filtering can be done in either order: filtering the
    sorted data gives the view the table computes by sorting the filtered
    data. *)
Theorem filter_after_sort (st : State) (data : list KeywordEntry) :
  filteredData st (JS.Array_sort (comparefn st) data) = sortedData st data.
Proof.
  unfold sortedData, filteredData.
  apply filter_Array_sort; [ apply comparefn_sgn | apply comparefn_trans ].
Qed.

Lemma includes_empty (s : string) : JS.includes s "" = true.
Proof. apply includes_iff. now exists EmptyString, s. Qed.

(** X5. A freshly mounted table hides nothing: its view holds every entry
    of the data, each once, by non-increasing score, entries of equal score
    in data order. *)
Theorem initial_view (data : list KeywordEntry) :
  filteredData initial data = data /\
  Permutation data (sortedData initial data) /\
  StronglySorted (fun a b => priorityScore b <= priorityScore a)
                 (sortedData initial data) /\
  (forall score,
     List.filter (fun y => priorityScore y =? score)
                 (sortedData initial data)
     = List.filter (fun y => priorityScore y =? score) data).
Proof.
  assert (filteredData initial data = data) as F.
  { unfold filteredData. apply filter_all.
    apply forallb_forall. intros e _.
    unfold matchesSearch, matchesIntent. simpl.
    now rewrite includes_empty. }
  split; [ exact F | ]. split; [ | split ].
  - rewrite <- F at 1. apply Array_sort_perm.
  - eapply sorted_weaken; [ | apply (sortedData_sorted initial data) ].
    intros a b. unfold comparefn. simpl. lia.
  - intros score. rewrite <- F at 2.
    now apply sortedData_ties_score.
Qed.
End TableOrderFacts.

(* ===================================================================== *)
(** * What the table draws *)
(* ===================================================================== *)

Section TableViewFacts.
Import KeywordTable TableView.

(** X6. Exactly one column carries an arrow, the active sort field.  After
    a click on a header the arrow is on that column and on no other; it
    points up only when the column was already active and descending, and
    down otherwise. *)
Theorem SortIcon_follows_click (st : State) (field : SortField) :
  (forall f, SortIcon st f <> Placeholder <-> f = sortField st) /\
  SortIcon (handleSort st field) field
  = (if SortField_eqb field (sortField st)
     then match sortDirection st with asc => ArrowDown | desc => ArrowUp end
     else ArrowDown) /\
  (forall other, other <> field ->
                 SortIcon (handleSort st field) other = Placeholder).
Proof.
  split; [ | split ].
  - intros f. unfold SortIcon.
    destruct (SortField_eqb (sortField st) f) eqn:E; simpl.
    + apply SortField_eqb_eq in E. subst f.
      split; [ reflexivity | ].
      intros _. destruct (sortDirection st); discriminate.
    + split; [ congruence | ].
      intros ->. assert (SortField_eqb (sortField st) (sortField st) = true)
        by now apply SortField_eqb_eq.
      congruence.
  - unfold SortIcon, handleSort.
    destruct (SortField_eqb field (sortField st)) eqn:E; simpl.
    + apply SortField_eqb_eq in E. subst field.
      assert (SortField_eqb (sortField st) (sortField st) = true) as ->
          by now apply SortField_eqb_eq.
      simpl. now destruct (sortDirection st).
    + assert (SortField_eqb field field = true) as ->
          by now apply SortField_eqb_eq.
      reflexivity.
  - intros other N. unfold SortIcon, handleSort.
    destruct (SortField_eqb field (sortField st)) eqn:E; simpl.
    + apply SortField_eqb_eq in E. subst field.
      destruct (SortField_eqb (sortField st) other) eqn:E'; simpl.
      * apply SortField_eqb_eq in E'. congruence.
      * reflexivity.
    + destruct (SortField_eqb field other) eqn:E'; simpl.
      * apply SortField_eqb_eq in E'. congruence.
      * reflexivity.
Qed.

Lemma SortIcon_follows_click_witness :
  SortIcon (handleSort initial f_keyword) f_priorityScore = Placeholder /\
  SortIcon (handleSort initial f_keyword) f_keyword = ArrowDown /\
  SortIcon (handleSort initial f_priorityScore) f_priorityScore = ArrowUp.
Proof.
  split; [ | split ].
  - apply (proj2 (proj2 (SortIcon_follows_click initial f_keyword))).
    discriminate.
  - apply (proj1 (proj2 (SortIcon_follows_click initial f_keyword))).
  - apply (proj1 (proj2 (SortIcon_follows_click initial f_priorityScore))).
Defined.

Lemma intentMembers_cases (a : string) :
  a = SearchIntent.Informational \/ a = SearchIntent.Commercial \/
  a = SearchIntent.Transactional \/ a = SearchIntent.Navigational \/
  ~ In a intentMembers.
Proof.
  destruct (String.eqb_spec a SearchIntent.Informational); [ tauto | ].
  destruct (String.eqb_spec a SearchIntent.Commercial); [ tauto | ].
  destruct (String.eqb_spec a SearchIntent.Transactional); [ tauto | ].
  destruct (String.eqb_spec a SearchIntent.Navigational); [ tauto | ].
  do 4 right. simpl. intuition congruence.
Qed.

Lemma getIntentColor_default (a : string) :
  ~ In a intentMembers -> getIntentColor a = "bg-slate-100 text-slate-700".
Proof.
  intros N. unfold getIntentColor.
  destruct (String.eqb_spec a SearchIntent.Informational) as [ -> | _ ];
    [ exfalso; apply N; simpl; tauto | ].
  destruct (String.eqb_spec a SearchIntent.Transactional) as [ -> | _ ];
    [ exfalso; apply N; simpl; tauto | ].
  destruct (String.eqb_spec a SearchIntent.Commercial) as [ -> | _ ];
    [ exfalso; apply N; simpl; tauto | ].
  destruct (String.eqb_spec a SearchIntent.Navigational) as [ -> | _ ];
    [ exfalso; apply N; simpl; tauto | ].
  reflexivity.
Qed.

(** X7. The badge class tells the intents apart exactly as far as the enum
    goes: two intents get the same class if and only if they are the same
    string or neither is a member of the enum.  A string outside the enum,
    a member in another letter case included, gets the slate default. *)
Theorem getIntentColor_separates (a b : string) :
  (getIntentColor a = getIntentColor b <->
   a = b \/ (~ In a intentMembers /\ ~ In b intentMembers)) /\
  (~ In a intentMembers ->
   getIntentColor a = "bg-slate-100 text-slate-700").
Proof.
  split; [ | apply getIntentColor_default ].
  split.
  - intros H.
    destruct (intentMembers_cases a) as [ -> | [ -> | [ -> | [ -> | Na ]]]];
      destruct (intentMembers_cases b) as [ -> | [ -> | [ -> | [ -> | Nb ]]]];
      try (left; reflexivity); try discriminate H;
      try (rewrite (getIntentColor_default _ Nb) in H; discriminate H);
      try (rewrite (getIntentColor_default _ Na) in H; discriminate H).
    right. now split.
  - intros [ -> | [Na Nb] ]; [ reflexivity | ].
    now rewrite (getIntentColor_default _ Na), (getIntentColor_default _ Nb).
Qed.

Lemma getIntentColor_separates_witness :
  getIntentColor "commercial" = "bg-slate-100 text-slate-700" /\
  getIntentColor "commercial" = getIntentColor "Unknown".
Proof.
  split.
  - apply (proj2 (getIntentColor_separates "commercial" "Unknown")).
    simpl. intuition discriminate.
  - apply (proj1 (getIntentColor_separates "commercial" "Unknown")).
    right. split; simpl; intuition discriminate.
Defined.

End TableViewFacts.

Section TableStates.
Import KeywordTable TableView.

Lemma mapWithIndex_nil {A B : Type} (f : nat -> A -> B) (from : nat)
      (l : list A) :
  mapWithIndex f from l = [] <-> l = [].
Proof. destruct l; simpl; split; congruence. Qed.

(** X9. The "No keywords found" row is drawn exactly when no entry of the
    data passes the filter, which is exactly when the body has no row of
    its own: the body is never blank.  In that state the footer counts 0
    and an export holds the header line and nothing else. *)
Theorem empty_view (st : State) (data : list KeywordEntry) :
  (showsNoKeywordsRow st data = true
   <-> forall e, In e data -> ~ kept st e) /\
  (showsNoKeywordsRow st data = true <-> bodyRows st data = []) /\
  (showsNoKeywordsRow st data = true ->
   footer st data = "Showing 0 keywords" /\
   csvContent st data = "Keyword,Type,Intent,Score,Importance").
Proof.
  assert (showsNoKeywordsRow st data = true <-> sortedData st data = [])
    as E.
  { unfold showsNoKeywordsRow. rewrite Nat.eqb_eq.
    destruct (sortedData st data); simpl; split; congruence. }
  split; [ | split ].
  - rewrite E. split.
    + intros H e Hin K.
      assert (In e (sortedData st data)) as Hs.
      { eapply Permutation_in; [ apply Array_sort_perm | ].
        unfold filteredData. apply filter_In. split; [ exact Hin | ].
        now apply keep_iff. }
      rewrite H in Hs. exact Hs.
    + intros H.
      pose proof (Array_sort_perm (comparefn st) (filteredData st data))
        as P.
      fold (sortedData st data) in P.
      destruct (sortedData st data) as [ | e l ];
        [ reflexivity | exfalso ].
      assert (In e (filteredData st data)) as Hf.
      { eapply Permutation_in; [ apply Permutation_sym, P | now left ]. }
      unfold filteredData in Hf. apply filter_In in Hf as [Hin K].
      apply keep_iff in K. exact (H e Hin K).
  - rewrite E. unfold bodyRows. now rewrite mapWithIndex_nil.
  - intros H. apply E in H. unfold footer, csvContent. rewrite H.
    split; reflexivity.
Qed.

Lemma empty_view_witness :
  footer commercialOnly [buyCoffee; whatIsCoffee] = "Showing 0 keywords" /\
  csvContent commercialOnly [buyCoffee; whatIsCoffee]
  = "Keyword,Type,Intent,Score,Importance".
Proof.
  apply (proj2 (proj2 (empty_view commercialOnly [buyCoffee; whatIsCoffee]))).
  reflexivity.
Defined.

Lemma step_offered (st st' : State) (e : Event) :
  offered st -> step st e = Some st' -> offered st'.
Proof.
  intros [Hf Hi]. destruct e as [field | text | option]; cbn [step].
  - destruct (existsb (SortField_eqb field) clickableHeaders) eqn:E;
      [ | discriminate ].
    intros [= <-]. split.
    + unfold handleSort.
      destruct (SortField_eqb field (sortField st)); simpl;
        [ exact Hf | ].
      apply existsb_exists in E as (f & Hin & Ef).
      apply SortField_eqb_eq in Ef. now subst.
    + unfold handleSort.
      now destruct (SortField_eqb field (sortField st)).
  - intros [= <-]. now split.
  - destruct (existsb (String.eqb option) intentOptions) eqn:E;
      [ | discriminate ].
    intros [= <-]. split; [ exact Hf | ].
    apply existsb_exists in E as (o & Hin & Eo).
    apply String.eqb_eq in Eo. simpl. now subst.
Qed.

Lemma run_offered (events : list Event) (st st' : State) :
  offered st -> run st events = Some st' -> offered st'.
Proof.
  revert st. induction events as [ | e events IH ]; intros st H; simpl.
  - now intros [= <-].
  - destruct (step st e) as [st1 | ] eqn:E; [ | discriminate ].
    apply IH. now apply (step_offered st st1 e).
Qed.

(** X10. Through the header clicks, the search box and the intent select,
    the table never comes to sort by importance, and its intent filter is
    always one of the five options.  Hence an entry whose intent is not a
    member of the enum is in the view under [All] only: every other
    reachable filter hides it. *)
Theorem table_reachable_states (events : list Event) (st : State) :
  run initial events = Some st ->
  sortField st <> f_importance /\
  In (filterIntent st) intentOptions /\
  (forall data e,
     ~ In (searchIntent e) intentMembers ->
     filterIntent st <> "All" ->
     ~ In e (sortedData st data)).
Proof.
  intros R.
  assert (offered st) as [Hf Hi].
  { apply (run_offered events initial st); [ | exact R ].
    split; simpl; tauto. }
  split; [ | split ].
  - intros E. rewrite E in Hf. simpl in Hf. intuition discriminate.
  - exact Hi.
  - intros data e Ne Nall Hin.
    eapply Permutation_in in Hin;
      [ | apply Permutation_sym, Array_sort_perm ].
    unfold filteredData in Hin. apply filter_In in Hin as [_ K].
    apply keep_iff in K as [_ [K | K]]; [ contradiction | ].
    apply Ne. rewrite K.
    simpl in Hi. unfold intentMembers. simpl.
    destruct Hi as [Hi | Hi]; [ congruence | ].
    intuition.
Qed.

Lemma table_reachable_states_witness :
  sortField (handleSort
               {| searchTerm := "coffee"; sortField := f_priorityScore;
                  sortDirection := desc; filterIntent := "Navigational" |}
               f_keyword) <> f_importance /\
  ~ In offEnum
       (sortedData
          (handleSort
             {| searchTerm := "coffee"; sortField := f_priorityScore;
                sortDirection := desc; filterIntent := "Navigational" |}
             f_keyword)
          [buyCoffee; offEnum]).
Proof.
  pose proof (table_reachable_states
                [EditSearch "coffee"; SelectIntent "Navigational";
                 ClickHeader f_keyword] _ eq_refl) as (H1 & _ & H3).
  split; [ exact H1 | ].
  apply H3.
  - simpl. intuition discriminate.
  - discriminate.
Defined.
End TableStates.

(* ===================================================================== *)
(** * The lines of the exported text *)
(* ===================================================================== *)

Section CsvLines.
Import KeywordTable.

Lemma lineFeeds_app (a b : string) :
  lineFeeds (a ++ b) = (lineFeeds a + lineFeeds b)%nat.
Proof.
  induction a as [ | c a IH ]; simpl.
  - reflexivity.
  - rewrite IH. lia.
Qed.

Lemma lineFeeds_digits (d : Decimal.uint) :
  lineFeeds (NilEmpty.string_of_uint d) = 0%nat.
Proof. induction d; simpl; assumption || reflexivity. Qed.

(** The digits of a number hold no line feed. *)
Lemma lineFeeds_Number_toString (n : Z) :
  lineFeeds (JS.Number_toString n) = 0%nat.
Proof.
  unfold JS.Number_toString, NilZero.string_of_int, NilZero.string_of_uint.
  destruct (Z.to_int n) as [d | d]; destruct d; simpl;
    try reflexivity; apply lineFeeds_digits.
Qed.

Lemma lineFeeds_csvRow (row : KeywordEntry) :
  lineFeeds (csvRow row) = fieldLineFeeds row.
Proof.
  unfold csvRow, fieldLineFeeds.
  rewrite !lineFeeds_app, lineFeeds_Number_toString.
  change (lineFeeds JS.dquote) with 0%nat.
  change (lineFeeds ",") with 0%nat. lia.
Qed.

Lemma lineFeeds_join (first : string) (rest : list string) :
  lineFeeds (JS.join JS.newline (first :: rest))
  = (lineFeeds first + List.length rest
     + list_sum (List.map lineFeeds rest))%nat.
Proof.
  revert first. induction rest as [ | x rest IH ]; intros first.
  - simpl. lia.
  - change (JS.join JS.newline (first :: x :: rest))
      with (first ++ JS.newline ++ JS.join JS.newline (x :: rest)).
    rewrite !lineFeeds_app, IH. simpl. lia.
Qed.

(** X11. The exported text holds one line feed per row of the view, plus
    every line feed that stands inside a text field: fields are copied as
    they are.  So a view none of whose fields holds a line feed exports as
    exactly one header line and one line per row, with no line feed at the
    end. *)
Theorem csvContent_lineFeeds (st : State) (data : list KeywordEntry) :
  lineFeeds (csvContent st data)
  = (List.length (sortedData st data)
     + list_sum (List.map fieldLineFeeds (sortedData st data)))%nat /\
  (Forall (fun row => fieldLineFeeds row = 0%nat) (sortedData st data) ->
   lineFeeds (csvContent st data) = List.length (sortedData st data)).
Proof.
  assert (lineFeeds (csvContent st data)
          = (List.length (sortedData st data)
             + list_sum (List.map fieldLineFeeds (sortedData st data)))%nat)
    as E.
  { unfold csvContent. rewrite lineFeeds_join.
    rewrite List.length_map, List.map_map.
    rewrite (List.map_ext _ _ lineFeeds_csvRow). reflexivity. }
  split; [ exact E | ].
  intros F. rewrite E.
  assert (list_sum (List.map fieldLineFeeds (sortedData st data)) = 0%nat)
    as ->.
  { clear E. set (view := sortedData st data) in *. clearbody view.
    induction F as [ | row l Hrow F IH ]; simpl.
    - reflexivity.
    - now rewrite Hrow, IH. }
  apply Nat.add_0_r.
Qed.

Lemma csvContent_lineFeeds_witness :
  lineFeeds (csvContent initial [buyCoffee; whatIsCoffee; quoted]) = 3%nat.
Proof.
  apply (proj2 (csvContent_lineFeeds initial [buyCoffee; whatIsCoffee; quoted])).
  repeat constructor.
Defined.
End CsvLines.

(* ===================================================================== *)
(** * The client and the page *)
(* ===================================================================== *)

Section ClientOutcomes.
Import App.
Variable prompt : string -> string.
Variable generateContent : string -> JS.outcome (option string).
Variable JSON_parse : string -> JS.outcome (list KeywordEntry).

Let client := GeminiService.generateKeywords prompt generateContent
                                             JSON_parse.

(** X12. The client returns exactly what [JSON.parse] returns for a
    non-empty answer, and throws in three cases only: the service threw,
    and the caller gets that very error; the answer had no text, and the
    error is the one made on the spot, the parser not being called; the
    parser threw, and the caller gets that very error. *)
Theorem generateKeywords_outcomes (seed : string) :
  (forall data,
     client seed = JS.Returned data <->
     exists text,
       generateContent (prompt seed) = JS.Returned (Some text) /\
       text <> "" /\ JSON_parse text = JS.Returned data) /\
  (forall e,
     client seed = JS.Thrown e <->
     generateContent (prompt seed) = JS.Thrown e \/
     ((generateContent (prompt seed) = JS.Returned None \/
       generateContent (prompt seed) = JS.Returned (Some "")) /\
      e = GeminiService.noData) \/
     (exists text,
        generateContent (prompt seed) = JS.Returned (Some text) /\
        text <> "" /\ JSON_parse text = JS.Thrown e)).
Proof.
  unfold client, GeminiService.generateKeywords.
  destruct (generateContent (prompt seed)) as [[text | ] | e0].
  - destruct text as [ | c text ]; cbn [JS.truthy].
    + split; [ intros data | intros e ].
      * split; [ discriminate | ].
        intros (t & [= <-] & N & _). congruence.
      * split.
        -- intros [= <-]. right. left. split; [ now right | reflexivity ].
        -- intros [ H | [ [_ ->] | (t & [= <-] & N & _) ] ];
             [ discriminate | reflexivity | congruence ].
    + destruct (JSON_parse (String c text)) as [d | e1] eqn:P.
      * split; [ intros data | intros e ].
        -- split.
           ++ intros [= <-]. exists (String c text).
              repeat split; [ discriminate | exact P ].
           ++ intros (t & [= <-] & _ & H). congruence.
        -- split; [ discriminate | ].
           intros [ H | [ [[H | H] _] | (t & [= <-] & _ & H) ] ];
             try discriminate. congruence.
      * split; [ intros data | intros e ].
        -- split; [ discriminate | ].
           intros (t & [= <-] & _ & H). congruence.
        -- split.
           ++ intros [= <-]. right. right. exists (String c text).
              repeat split; [ discriminate | exact P ].
           ++ intros [ H | [ [[H | H] _] | (t & [= <-] & _ & H) ] ];
                try discriminate. congruence.
  - split; [ intros data | intros e ].
    + split; [ discriminate | ]. intros (t & H & _). discriminate.
    + split.
      * intros [= <-]. right. left. split; [ now left | reflexivity ].
      * intros [ H | [ [_ ->] | (t & H & _) ] ];
          [ discriminate | reflexivity | discriminate ].
  - split; [ intros data | intros e ].
    + split; [ discriminate | ]. intros (t & H & _). discriminate.
    + split.
      * intros [= <-]. now left.
      * intros [ [= <-] | [ [[H | H] _] | (t & H & _) ] ];
          try discriminate. reflexivity.
Qed.

(** X13. When the service answers a submitted seed with a text that
    parses, the handler ends with the parsed entries as the keyword list, no
    error and [loading] cleared; the error box is not drawn, and the results
    section is drawn exactly when the list is not empty: an answer that
    parses to the empty list leaves the page with neither results nor an
    error. *)
Theorem generation_success (st : State) (text : string)
        (data : list KeywordEntry) :
  JS.trim (seedKeyword st) <> "" ->
  generateContent (prompt (seedKeyword st)) = JS.Returned (Some text) ->
  text <> "" ->
  JSON_parse text = JS.Returned data ->
  let st' := handleGenerate client st in
  st' = {| seedKeyword := seedKeyword st; keywords := data;
           loading := false; error := None; hasSearched := true |} /\
  AppView.showsError st' = false /\
  AppView.showsHero st' = false /\
  (forall h,
     showsResults st' (fst (memo_stats (keywords st') h))
     = negb (Nat.eqb (List.length data) 0)).
Proof.
  intros Hseed Hgc Htext Hparse st'.
  assert (client (seedKeyword st) = JS.Returned data) as Hc.
  { unfold client, GeminiService.generateKeywords. rewrite Hgc.
    apply truthy_iff in Htext. now rewrite Htext, Hparse. }
  destruct (submit_passes client st Hseed)
    as (st1 & Hsub & Hk & He & Hl & Hh & Hs & Hrun).
  assert (st' = {| seedKeyword := seedKeyword st; keywords := data;
                   loading := false; error := None; hasSearched := true |})
    as E.
  { subst st'. rewrite Hrun, Hc. simpl. now rewrite He, Hh, Hs. }
  split; [ exact E | ]. rewrite E.
  split; [ reflexivity | ]. split; [ reflexivity | ].
  intros h. cbn [keywords]. unfold memo_stats.
  destruct data as [ | k l ]; reflexivity.
Qed.
End ClientOutcomes.

Section PageFacts.
Import App AppView.

Lemma generation_success_witness :
  handleGenerate
    (GeminiService.generateKeywords
       (fun seed => seed) (fun _ => JS.Returned (Some "[...]"))
       (fun _ => JS.Returned [buyCoffee; whatIsCoffee]))
    afterFailure
  = {| seedKeyword := " coffee "; keywords := [buyCoffee; whatIsCoffee];
       loading := false; error := None; hasSearched := true |}.
Proof.
  apply (generation_success
           (fun seed => seed) (fun _ => JS.Returned (Some "[...]"))
           (fun _ => JS.Returned [buyCoffee; whatIsCoffee])
           afterFailure "[...]" [buyCoffee; whatIsCoffee]).
  - discriminate.
  - reflexivity.
  - discriminate.
  - reflexivity.
Defined.

Lemma step_coherent (p p' : Page) (e : Event) :
  coherent p -> step p e = Some p' -> coherent p'.
Proof.
  intros (Hp & Hl & He & Hh).
  destruct p as [st n]. cbn [ui pending] in *.
  destruct e as [v | v | | r]; cbn [step ui pending].
  - destruct (inputDisabled st); [ discriminate | ].
    intros [= <-]. unfold coherent. cbn. tauto.
  - destruct (showsHero st && existsb (String.eqb v) suggestions);
      [ | discriminate ].
    intros [= <-]. unfold coherent. cbn. tauto.
  - unfold buttonDisabled, submit.
    destruct (loading st) eqn:L; [ discriminate | ]. cbn [orb].
    destruct (negb (JS.truthy (JS.trim (seedKeyword st))));
      [ discriminate | ].
    intros [= <-]. unfold coherent. cbn. subst n.
    repeat split; try reflexivity; try discriminate.
  - destruct n as [ | n ]; [ discriminate | ].
    intros [= <-].
    destruct (loading st) eqn:L; [ | discriminate ].
    injection Hp as ->.
    destruct (Hl eq_refl) as (Hk & Herr & Hs).
    destruct r as [data | err]; unfold coherent; cbn;
      rewrite ?Herr, ?Hs, ?Hk.
    + repeat split; intros; try discriminate; try reflexivity.
    + repeat split; intros; try discriminate; try reflexivity.
      match goal with H : Some _ = Some _ |- _ => injection H as <- end.
      apply messageOf_nonempty.
Qed.

Lemma run_coherent (events : list Event) (p p' : Page) :
  coherent p -> run p events = Some p' -> coherent p'.
Proof.
  revert p. induction events as [ | e events IH ]; intros p H; simpl.
  - now intros [= <-].
  - destruct (step p e) as [p1 | ] eqn:E; [ | discriminate ].
    apply IH. now apply (step_coherent p p1 e).
Qed.

(** X14. With the input and the button disabled as the page disables them,
    at most one call to the client is pending at any time, and it is
    pending exactly while [loading] is set.  While loading, and whenever an
    error is shown, the keyword list is empty; a shown error is never the
    empty text; and before the first search there are neither keywords nor
    an error. *)
Theorem page_stays_coherent (events : list Event) (p : Page) :
  run start events = Some p ->
  (pending p <= 1)%nat /\
  (pending p = 1%nat <-> loading (ui p) = true) /\
  (loading (ui p) = true \/ showsError (ui p) = true ->
   keywords (ui p) = []) /\
  (forall m, error (ui p) = Some m -> m <> "") /\
  (showsHero (ui p) = true ->
   keywords (ui p) = [] /\ error (ui p) = None /\ loading (ui p) = false).
Proof.
  intros R.
  assert (coherent p) as (Hp & Hl & He & Hh).
  { apply (run_coherent events start p); [ | exact R ].
    unfold coherent, start. cbn.
    repeat split; try reflexivity; discriminate. }
  split; [ | split; [ | split; [ | split ] ] ].
  - rewrite Hp. destruct (loading (ui p)); lia.
  - rewrite Hp. destruct (loading (ui p)); split; congruence.
  - intros [H | H].
    + now apply Hl.
    + unfold showsError in H.
      destruct (error (ui p)) as [m | ] eqn:E; [ | discriminate ].
      now apply (He m).
  - intros m E. now apply (He m).
  - unfold showsHero. intros H. apply negb_true_iff in H.
    destruct (Hh H) as [Hk Herr]. repeat split; try assumption.
    destruct (loading (ui p)) eqn:L; [ | reflexivity ].
    destruct (Hl eq_refl) as (_ & _ & Hs). congruence.
Qed.

Lemma page_stays_coherent_witness :
  keywords (settle
              {| seedKeyword := "vegan recipes"; keywords := [];
                 loading := true; error := None; hasSearched := true |}
              (JS.Thrown {| JS.message := None |})) = [].
Proof.
  pose proof (page_stays_coherent
                [ClickSuggestion "vegan recipes"; SubmitForm;
                 Settle (JS.Thrown {| JS.message := None |})]
                _ eq_refl) as (_ & _ & H & _).
  apply H. right. reflexivity.
Defined.
End PageFacts.

(* ===================================================================== *)
(** * More about the statistics *)
(* ===================================================================== *)

Section AverageBounds.
Import App.



End AverageBounds.

Section Occurrences.
Import App.

Lemma own_replace_own (o : JS.object) (k k' : string) (v : JS.value) :
  JS.own (JS.replace_own o k v) k'
  = match JS.own o k' with
    | Some v' => if String.eqb k' k then Some v else Some v'
    | None => None
    end.
Proof.
  induction o as [ | [k0 v0] o IH ]; simpl.
  - reflexivity.
  - destruct (String.eqb_spec k0 k) as [ -> | N ]; simpl.
    + destruct (String.eqb_spec k k') as [ -> | N' ].
      * now rewrite String.eqb_refl.
      * destruct (JS.own o k'); [ | reflexivity ].
        destruct (String.eqb_spec k' k); congruence.
    + destruct (String.eqb_spec k0 k') as [ -> | N' ].
      * destruct (String.eqb_spec k' k); congruence.
      * exact IH.
Qed.

Lemma own_snoc (o : JS.object) (k k' : string) (v : JS.value) :
  JS.own (o ++ [(k, v)])%list k'
  = match JS.own o k' with
    | Some v' => Some v'
    | None => if String.eqb k k' then Some v else None
    end.
Proof.
  induction o as [ | [k0 v0] o IH ]; simpl.
  - reflexivity.
  - destruct (String.eqb k0 k'); [ reflexivity | exact IH ].
Qed.

Lemma occurrences_snoc (k k' : string) (l : list string) :
  occurrences k' (l ++ [k])%list
  = occurrences k' l + (if String.eqb k' k then 1 else 0).
Proof.
  unfold occurrences. rewrite count_occ_app. simpl.
  destruct (string_dec k k') as [ -> | N ].
  - rewrite String.eqb_refl. lia.
  - destruct (String.eqb_spec k' k); [ congruence | lia ].
Qed.

Lemma counted_step (o : JS.object) (l : list string) (k : string) :
  JS.inherited k = false ->
  counted o l -> counted (count o k) (l ++ [k])%list.
Proof.
  intros Hk C k'.
  assert (k <> "__proto__") as Np by (intros ->; discriminate).
  rewrite occurrences_snoc.
  unfold count, JS.assign, JS.incremented.
  pose proof (C k) as Ck. pose proof (C k') as Ck'.
  assert (0 <= occurrences k l) as P by (unfold occurrences; lia).
  assert (0 <= occurrences k' l) as P' by (unfold occurrences; lia).
  destruct (Z.eqb_spec (occurrences k l) 0) as [Z0 | NZ]; rewrite Ck.
  - rewrite Hk. apply String.eqb_neq in Np. rewrite Np.
    rewrite own_snoc, Ck'.
    destruct (String.eqb_spec k' k) as [ -> | N ].
    + rewrite Z0. simpl. now rewrite String.eqb_refl.
    + rewrite Z.add_0_r.
      destruct (Z.eqb_spec (occurrences k' l) 0); [ | reflexivity ].
      destruct (String.eqb_spec k k'); congruence.
  - rewrite own_replace_own, Ck'.
    destruct (String.eqb_spec k' k) as [ -> | N ].
    + destruct (Z.eqb_spec (occurrences k l) 0); [ contradiction | ].
      destruct (Z.eqb_spec (occurrences k l + 1) 0); [ lia | reflexivity ].
    + rewrite Z.add_0_r.
      now destruct (Z.eqb_spec (occurrences k' l) 0).
Qed.

Lemma counted_fold (l' : list string) (o : JS.object) (l : list string) :
  List.forallb (fun k => negb (JS.inherited k)) l' = true ->
  counted o l -> counted (fold_left count l' o) (l ++ l')%list.
Proof.
  revert o l. induction l' as [ | k l' IH ]; intros o l Hl C.
  - simpl. now rewrite List.app_nil_r.
  - cbn [List.forallb] in Hl. apply andb_true_iff in Hl as [Hk Hl].
    apply negb_true_iff in Hk. cbn [fold_left].
    replace (l ++ k :: l')%list with ((l ++ [k]) ++ l')%list
      by now rewrite <- List.app_assoc.
    apply IH; [ exact Hl | now apply counted_step ].
Qed.

Lemma NoDup_firstSeen (l : list string) : List.NoDup (firstSeen l).
Proof.
  induction l as [ | x l IH ]; simpl.
  - constructor.
  - constructor.
    + intros H. apply filter_In in H as [_ H].
      now rewrite String.eqb_refl in H.
    + now apply List.NoDup_filter.
Qed.

Lemma own_In (o : JS.object) (k : string) (v : JS.value) :
  List.NoDup (keys o) -> (In (k, v) o <-> JS.own o k = Some v).
Proof.
  induction o as [ | [k0 v0] o IH ]; intros N; simpl.
  - split; [ tauto | discriminate ].
  - inversion N as [ | ? ? Hk N' ]; subst.
    destruct (String.eqb_spec k0 k) as [ -> | Ne ].
    + split.
      * intros [ [= ->] | H ]; [ reflexivity | ].
        exfalso. apply Hk. now apply (in_map fst) in H.
      * intros [= ->]. now left.
    + rewrite <- (IH N'). split.
      * intros [ [= -> ->] | H ]; [ congruence | exact H ].
      * tauto.
Qed.

Lemma plain_not_proto (l : list string) :
  List.forallb (fun k => negb (JS.inherited k)) l = true ->
  ~ In "__proto__" l.
Proof.
  intros H Hin. rewrite forallb_forall in H.
  specialize (H _ Hin). discriminate.
Qed.

(** The entries of the distribution of the names [l], none of which
    [Object.prototype] has: one per name, with its number of
    occurrences. *)
Lemma distribution_counted (l : list string) (e : DistributionEntry) :
  List.forallb (fun k => negb (JS.inherited k)) l = true ->
  (In e (distribution (fold_left count l []))
   <-> In (name e) l /\ value e = JS.VNum (occurrences (name e) l)).
Proof.
  intros Hl.
  assert (counted (fold_left count l []) l) as C.
  { apply (counted_fold l [] [] Hl). intros k. reflexivity. }
  assert (List.NoDup (keys (fold_left count l []))) as N.
  { rewrite (keys_counted l (plain_not_proto l Hl)). apply NoDup_firstSeen. }
  unfold distribution. rewrite in_map_iff.
  assert (forall k, In k l <-> occurrences k l <> 0) as O.
  { intros k. unfold occurrences.
    rewrite (count_occ_In string_dec). lia. }
  split.
  - intros ([k v] & <- & Hin). cbn [name value fst snd].
    eapply Permutation_in in Hin; [ | apply Object_entries_perm ].
    apply (own_In _ k v N) in Hin. rewrite C in Hin.
    destruct (Z.eqb_spec (occurrences k l) 0); [ discriminate | ].
    injection Hin as <-. split; [ now apply O | reflexivity ].
  - intros [Hin Hv]. exists (name e, value e). split.
    + now destruct e.
    + eapply Permutation_in;
        [ apply Permutation_sym, Object_entries_perm | ].
      apply (own_In _ _ _ N). rewrite C, Hv.
      apply O in Hin.
      now destruct (Z.eqb_spec (occurrences (name e) l) 0).
Qed.

Lemma NoDup_names_distribution (l : list string) :
  ~ In "__proto__" l ->
  List.NoDup (List.map name (distribution (fold_left count l []))).
Proof.
  intros Np. rewrite names_distribution, (keys_counted l Np).
  eapply Permutation_NoDup; [ | apply (NoDup_firstSeen l) ].
  unfold indicesFirst. apply Permutation_sym.
  eapply perm_trans; [ | apply filter_partition_perm ].
  apply Permutation_app_tail, Permutation_sym, Array_sort_perm.
Qed.

(** X16. For a list whose categories are names [Object.prototype] does not
    have, each distribution holds exactly one entry per category present in
    the list, and its value is the number of keywords of that category. *)
Theorem distribution_counts_occurrences (keywords : list KeywordEntry)
        (s : GenerationStats) :
  stats keywords = Some s ->
  plainNames keywords = true ->
  let intents := List.map searchIntent keywords in
  let types := List.map keywordType keywords in
  (forall e, In e (intentDistribution s) <->
             In (name e) intents /\
             value e = JS.VNum (occurrences (name e) intents)) /\
  (forall e, In e (typeDistribution s) <->
             In (name e) types /\
             value e = JS.VNum (occurrences (name e) types)) /\
  List.NoDup (List.map name (intentDistribution s)) /\
  List.NoDup (List.map name (typeDistribution s)).
Proof.
  intros Hs Hp intents types.
  apply andb_true_iff in Hp as [Hi Ht].
  destruct keywords as [ | k l ]; [ discriminate | ].
  unfold stats in Hs. injection Hs as <-.
  cbn [intentDistribution typeDistribution]. unfold tally.
  rewrite intentCounts_fold, typeCounts_fold.
  cbn [intentCounts typeCounts]. fold intents types.
  split; [ intros e; now apply distribution_counted | ].
  split; [ intros e; now apply distribution_counted | ].
  split; apply NoDup_names_distribution; now apply plain_not_proto.
Qed.

Lemma distribution_counts_occurrences_witness :
  In {| name := "Commercial"; value := JS.VNum 2 |}
     (intentDistribution threeEntriesStats).
Proof.
  apply (proj1 (distribution_counts_occurrences
                  threeEntries threeEntriesStats eq_refl eq_refl)).
  split; [ simpl; tauto | reflexivity ].
Defined.
End Occurrences.

Section RenderAgain.
Import App.

Lemma numeric_sorted (d : list DistributionEntry) :
  Forall numeric d -> Forall numeric (JS.Array_sort byCountDesc d).
Proof.
  intros F. eapply Permutation_Forall; [ apply Array_sort_perm | exact F ].
Qed.

Lemma sort_byCountDesc_twice (d : list DistributionEntry) :
  Forall numeric d ->
  JS.Array_sort byCountDesc (JS.Array_sort byCountDesc d)
  = JS.Array_sort byCountDesc d.
Proof.
  intros F. apply sort_descending_fixed.
  - now apply numeric_sorted.
  - now apply sort_byCountDesc_descending.
Qed.

(** X17. Rendering the results section again changes nothing further: with
    numeric counts, a second render of the same memoised object gives the
    same two cards and leaves the store exactly as the first render left
    it. *)
Theorem render_results_again (h : store) (o : StatsObject)
        (di dt : list DistributionEntry) :
  o_intentDistribution o <> o_typeDistribution o ->
  h !! o_intentDistribution o = Some di ->
  h !! o_typeDistribution o = Some dt ->
  Forall numeric di -> Forall numeric dt ->
  render_results o (snd (render_results o h)) = render_results o h.
Proof.
  intros N Hi Ht Fi Ft.
  rewrite (render_results_store h o di dt N Hi Ht). cbn [snd].
  set (si := JS.Array_sort byCountDesc di).
  set (st := JS.Array_sort byCountDesc dt).
  set (h1 := <[o_typeDistribution o := st]>
               (<[o_intentDistribution o := si]> h)).
  assert (h1 !! o_intentDistribution o = Some si) as Hi1.
  { unfold h1. rewrite lookup_insert_ne
      by (intros E; apply N; now symmetry).
    apply lookup_insert_eq. }
  assert (h1 !! o_typeDistribution o = Some st) as Ht1.
  { unfold h1. apply lookup_insert_eq. }
  rewrite (render_results_store h1 o si st N Hi1 Ht1).
  unfold si, st. rewrite !sort_byCountDesc_twice by assumption.
  fold si st. f_equal.
  rewrite (insert_id h1 _ _ Hi1). now rewrite (insert_id h1 _ _ Ht1).
Qed.

Lemma render_results_again_witness :
  render_results
    {| o_totalKeywords := 3; o_avgPriority := 82;
       o_intentDistribution := 1%positive;
       o_typeDistribution := 2%positive |}
    (snd (render_results
            {| o_totalKeywords := 3; o_avgPriority := 82;
               o_intentDistribution := 1%positive;
               o_typeDistribution := 2%positive |}
            (<[2%positive := typeDistribution threeEntriesStats]>
               (<[1%positive := intentDistribution threeEntriesStats]> ∅))))
  = render_results
      {| o_totalKeywords := 3; o_avgPriority := 82;
         o_intentDistribution := 1%positive;
         o_typeDistribution := 2%positive |}
      (<[2%positive := typeDistribution threeEntriesStats]>
         (<[1%positive := intentDistribution threeEntriesStats]> ∅)).
Proof.
  apply (render_results_again _ _
           (intentDistribution threeEntriesStats)
           (typeDistribution threeEntriesStats)).
  - discriminate.
  - reflexivity.
  - reflexivity.
  - apply (proj1 threeEntries_numeric).
  - apply (proj2 threeEntries_numeric).
Defined.
End RenderAgain.

(* ===================================================================== *)
(** * The colours of the donut *)
(* ===================================================================== *)

Section DonutColours.
Import App Dashboard.

Lemma mapWithIndex_seq {A B : Type} (f : nat -> B) (from : nat)
      (l : list A) :
  TableView.mapWithIndex (fun index _ => f index) from l
  = List.map f (seq from (List.length l)).
Proof.
  revert from. induction l as [ | x l IH ]; intros from; simpl.
  - reflexivity.
  - now rewrite IH.
Qed.

Lemma fill_mod (index : nat) : fill index = fill (index mod 4)%nat.
Proof.
  unfold fill. cbn [List.length COLORS].
  now rewrite Nat.Div0.mod_mod.
Qed.

Lemma fill_small (i j : nat) :
  (i < 4)%nat -> (j < 4)%nat -> fill i = fill j -> i = j.
Proof.
  intros Hi Hj.
  destruct i as [ | [ | [ | [ | i ]]]]; try lia;
    destruct j as [ | [ | [ | [ | j ]]]]; try lia;
    intros H; try reflexivity; discriminate H.
Qed.

(** X18. A cell of the donut always gets one of the four colours, never
    none; two cells get the same colour exactly when their positions differ
    by a multiple of four.  So the colours of a donut are pairwise distinct
    if and only if it has at most four cells. *)
Theorem fill_cycles (stats : GenerationStats) :
  (forall index, exists c, fill index = Some c /\ In c COLORS) /\
  (forall i j, fill i = fill j <-> (i mod 4 = j mod 4)%nat) /\
  (List.NoDup (cellFills stats)
   <-> (List.length (intentDistribution stats) <= 4)%nat).
Proof.
  assert (forall i j, fill i = fill j <-> (i mod 4 = j mod 4)%nat) as C.
  { intros i j. split.
    - rewrite (fill_mod i), (fill_mod j).
      apply fill_small; apply Nat.mod_upper_bound; discriminate.
    - intros H. now rewrite (fill_mod i), (fill_mod j), H. }
  split; [ | split; [ exact C | ] ].
  - intros index. rewrite (fill_mod index).
    pose proof (Nat.mod_upper_bound index 4 ltac:(discriminate)) as B.
    destruct (index mod 4)%nat as [ | [ | [ | [ | n ]]]]; try lia;
      eexists; (split; [ reflexivity | simpl; tauto ]).
  - unfold cellFills. rewrite mapWithIndex_seq.
    set (n := List.length (intentDistribution stats)). clearbody n.
    split.
    + intros N.
      destruct (Nat.le_gt_cases n 4) as [ L | G ]; [ exact L | exfalso ].
      assert (exists m, n = (5 + m)%nat) as [m ->] by (exists (n - 5)%nat; lia).
      rewrite seq_app in N. rewrite List.map_app in N.
      apply NoDup_app_remove_r in N.
      simpl in N. inversion N as [ | ? ? H _ ]; subst.
      apply H. simpl. tauto.
    + intros L.
      destruct n as [ | [ | [ | [ | [ | n ]]]]]; try lia; simpl;
        repeat constructor; simpl; intuition discriminate.
Qed.

Lemma names_within_members (l : list string) :
  Forall (fun k => In k intentMembers) l ->
  List.forallb (fun k => negb (JS.inherited k)) l = true.
Proof.
  intros F. apply forallb_forall. intros k Hk.
  rewrite List.Forall_forall in F. specialize (F k Hk).
  simpl in F. destruct F as [ <- | [ <- | [ <- | [ <- | [] ]]]];
    reflexivity.
Qed.

(** X19. When every intent of the list is a member of the enum, the donut
    has at most four cells, one per intent present, so every intent gets a
    colour of its own, and the keys of the legend are pairwise distinct.
    Sorting the array by count does not change the colours drawn, which go
    by position. *)
Theorem enum_intents_colours (keywords : list KeywordEntry)
        (s : GenerationStats) :
  stats keywords = Some s ->
  Forall (fun k => In (searchIntent k) intentMembers) keywords ->
  (List.length (intentDistribution s) <= 4)%nat /\
  List.NoDup (cellFills s) /\
  List.NoDup (List.map key (legend s)) /\
  (forall s', Permutation (intentDistribution s) (intentDistribution s') ->
              cellFills s' = cellFills s).
Proof.
  intros Hs F.
  assert (Forall (fun k => In k intentMembers)
                 (List.map searchIntent keywords)) as F'.
  { apply List.Forall_forall. intros k Hk.
    apply in_map_iff in Hk as (e & <- & He).
    rewrite List.Forall_forall in F. now apply F. }
  pose proof (names_within_members _ F') as Hplain.
  destruct keywords as [ | k0 l ]; [ discriminate | ].
  unfold stats in Hs. injection Hs as <-.
  unfold cellFills, legend. cbn [intentDistribution]. unfold tally.
  rewrite intentCounts_fold. cbn [intentCounts].
  set (intents := List.map searchIntent (k0 :: l)) in *.
  set (d := distribution (fold_left count intents [])).
  assert (List.NoDup (List.map name d)) as N.
  { apply NoDup_names_distribution. now apply plain_not_proto. }
  assert (List.length d <= 4)%nat as L.
  { rewrite <- (List.length_map name d).
    change 4%nat with (List.length intentMembers).
    apply (NoDup_incl_length N).
    intros x Hx. apply in_map_iff in Hx as (e & <- & He).
    apply (distribution_counted intents e Hplain) in He as [He _].
    rewrite List.Forall_forall in F'. now apply F'. }
  split; [ exact L | ]. split; [ | split ].
  - rewrite mapWithIndex_seq.
    destruct (List.length d) as [ | [ | [ | [ | [ | n ]]]]]; try lia;
      simpl; repeat constructor; simpl; intuition discriminate.
  - assert (forall from,
              List.map key (TableView.mapWithIndex legendItem from d)
              = List.map name d) as K.
    { induction d as [ | e d' IH ]; intros from; simpl.
      - reflexivity.
      - f_equal. apply IH.
        + now inversion N.
        + simpl in L. lia. }
    now rewrite K.
  - intros s' P. rewrite !mapWithIndex_seq.
    now rewrite (Permutation_length P).
Qed.

Lemma enum_intents_colours_witness :
  List.NoDup (cellFills threeEntriesStats).
Proof.
  apply (enum_intents_colours threeEntries threeEntriesStats eq_refl).
  repeat constructor; simpl; tauto.
Defined.
End DonutColours.
